(** * Second-hand platform (main.py): storage layer, delete paths, image importer

    A shallow embedding of the parts of [main.py] that carry the persistence
    and referential-integrity contract: [ensure_int_id], the [User] and
    [Product] dataclasses, [Storage], the three delete paths of
    [SecondHandApp] and [copy_image_to_storage].

    Conventions.
    - Python [int] is [Z]; Python [str] is [string], read as the UTF-8
      encoding of the text (a [str] holding a lone surrogate has no such
      encoding and cannot be written to a file opened with
      [encoding="utf-8"]; it is outside the model).
    - Python [float] is [spec_float], the IEEE 754 data of a double.
    - A raised exception is the [Raise] branch of the [Exc] monad.
    - Dialog answers ([messagebox.askyesno], a [Listbox] selection) are
      explicit arguments of the operation they steer. *)

From Stdlib Require Import ZArith SpecFloat Ascii.
From stdpp Require Import gmap strings list pretty.

Local Open Scope Z_scope.

(** ** Exceptions *)

Inductive exn : Type :=
| TypeError
| ValueError
| IndexError
| JSONDecodeError
| OSError.

Inductive Exc (A : Type) : Type :=
| Ok (a : A)
| Raise (e : exn).
Arguments Ok {A} a.
Arguments Raise {A} e.

Definition Exc_bind {A B} (m : Exc A) (k : A → Exc B) : Exc B :=
  match m with
  | Ok a => k a
  | Raise e => Raise e
  end.

Notation "'do' x <- m ; k" := (Exc_bind m (fun x => k))
  (at level 10, x name, m at level 100, k at level 200,
   format "'[v' 'do'  x  <-  m ; '/' k ']'").

(** A list comprehension [[f(x) for x in l]]: elements are built left to
    right and the first exception ends the comprehension. *)
Fixpoint Exc_mapM {A B} (f : A → Exc B) (l : list A) : Exc (list B) :=
  match l with
  | [] => Ok []
  | x :: l' => do y <- f x; do ys <- Exc_mapM f l'; Ok (y :: ys)
  end.

(** ** Identifier Allocator *)

(** [max(xs)] for a non-empty sequence [x :: l]. *)
Definition py_max (x : Z) (l : list Z) : Z := foldl Z.max x l.

Definition ensure_int_id (existing_ids : list Z) : Z :=
  match existing_ids with
  | [] => 1
  | x :: l => py_max x l + 1
  end.


(** ** JSON values

    What [json.load] returns and [json.dump] accepts. An object keeps its
    members in insertion order, as a Python [dict] does. *)

Definition float : Type := spec_float.

#[local] Set Warnings "-register-all".
Inductive json : Type :=
| JNull
| JBool (b : bool)
| JInt (n : Z)
| JFloat (x : float)
| JStr (s : string)
| JArr (items : list json)
| JObj (members : list (string * json)).

Definition dict : Type := list (string * json).

Fixpoint dict_get (k : string) (d : dict) : option json :=
  match d with
  | [] => None
  | (k', v) :: d' => if decide (k' = k) then Some v else dict_get k d'
  end.

(** [for x in v]: a list yields its items, a dict its keys, a string its
    characters; any other JSON value is not iterable. *)
Definition py_iter (v : json) : Exc (list json) :=
  match v with
  | JArr items => Ok items
  | JObj members => Ok (JStr <$> members.*1)
  | JStr s => Ok ((λ c, JStr (String c "")) <$> String.list_ascii_of_string s)
  | _ => Raise TypeError
  end.

(** The text codec of the [json] module, as [Storage] calls it:
    [json.dump(v, f, ensure_ascii=False, indent=2)] into a UTF-8 file and
    [json.load(f)] from it. [json_load] is [None] where [json.load]
    raises [JSONDecodeError]. The module reads back what it wrote. *)
Class JsonCodec (Doc : Type) : Type := {
  json_dump : json → Doc;
  json_load : Doc → option json;
  json_load_dump : ∀ v, json_load (json_dump v) = Some v
}.

(** ** Data models *)

Record User : Type := mkUser {
  userId : Z;
  email : string;
  phone : string;
  password : string;
  nickname : string;
  avatar : string;
  is_admin : bool;
  favorites : list Z
}.

Record Product : Type := mkProduct {
  productId : Z;
  name : string;
  category : string;
  description : string;
  price : float;
  images : list string;
  sellerId : Z;
  comments : list dict
}.

Definition updateProfile (self : User) (email' phone' nickname' avatar' : string) : User :=
  mkUser (userId self) email' phone' (password self) nickname' avatar'
         (is_admin self) (favorites self).

Definition edit (self : Product) (name' category' description' : string)
    (price' : float) (images' : list string) : Product :=
  mkProduct (productId self) name' category' description' price' images'
            (sellerId self) (comments self).

(** [dataclasses.asdict]: one member per field, in declaration order. *)
Definition User_asdict (u : User) : json :=
  JObj [ ("userId", JInt (userId u));
         ("email", JStr (email u));
         ("phone", JStr (phone u));
         ("password", JStr (password u));
         ("nickname", JStr (nickname u));
         ("avatar", JStr (avatar u));
         ("is_admin", JBool (is_admin u));
         ("favorites", JArr (JInt <$> favorites u)) ].

Definition Product_asdict (p : Product) : json :=
  JObj [ ("productId", JInt (productId p));
         ("name", JStr (name p));
         ("category", JStr (category p));
         ("description", JStr (description p));
         ("price", JFloat (price p));
         ("images", JArr (JStr <$> images p));
         ("sellerId", JInt (sellerId p));
         ("comments", JArr (JObj <$> comments p)) ].

(** Construction of a [User] or a [Product] from a dict passed as keyword
    arguments, as [load_users] and [load_products] do for every item.

    The generated [__init__] raises [TypeError] for a non-mapping, for an
    unexpected keyword and for a missing field without default. The field
    annotations are read as types: a member whose value is not of the
    annotated type is rejected here as well, so a record of the model always
    has well-typed fields. Python itself stores such a value unchecked; the
    model therefore covers the documents whose members have the annotated
    types, which are the documents [save_users] and [save_products] write,
    and says nothing about how the program goes on after loading others. *)

Definition as_int (v : json) : Exc Z :=
  match v with JInt n => Ok n | _ => Raise TypeError end.
Definition as_str (v : json) : Exc string :=
  match v with JStr s => Ok s | _ => Raise TypeError end.
Definition as_bool (v : json) : Exc bool :=
  match v with JBool b => Ok b | _ => Raise TypeError end.
Definition as_float (v : json) : Exc float :=
  match v with JFloat x => Ok x | _ => Raise TypeError end.
Definition as_dict (v : json) : Exc dict :=
  match v with JObj d => Ok d | _ => Raise TypeError end.
Definition as_list {A} (f : json → Exc A) (v : json) : Exc (list A) :=
  match v with JArr items => Exc_mapM f items | _ => Raise TypeError end.

Definition required {A} (f : json → Exc A) (k : string) (d : dict) : Exc A :=
  match dict_get k d with
  | Some v => f v
  | None => Raise TypeError
  end.

Definition optional {A} (f : json → Exc A) (k : string) (dflt : A) (d : dict) : Exc A :=
  match dict_get k d with
  | Some v => f v
  | None => Ok dflt
  end.

Definition known_keywords (fields : list string) (d : dict) : bool :=
  forallb (λ k, bool_decide (k ∈ fields)) d.*1.

Definition User_fields : list string :=
  ["userId"; "email"; "phone"; "password"; "nickname"; "avatar"; "is_admin";
   "favorites"].

Definition Product_fields : list string :=
  ["productId"; "name"; "category"; "description"; "price"; "images";
   "sellerId"; "comments"].

Definition User_kwargs (v : json) : Exc User :=
  do d <- as_dict v;
  if known_keywords User_fields d then
    do userId' <- required as_int "userId" d;
    do email' <- required as_str "email" d;
    do phone' <- required as_str "phone" d;
    do password' <- required as_str "password" d;
    do nickname' <- required as_str "nickname" d;
    do avatar' <- optional as_str "avatar" "" d;
    do is_admin' <- optional as_bool "is_admin" false d;
    do favorites' <- optional (as_list as_int) "favorites" [] d;
    Ok (mkUser userId' email' phone' password' nickname' avatar' is_admin' favorites')
  else Raise TypeError.

Definition Product_kwargs (v : json) : Exc Product :=
  do d <- as_dict v;
  if known_keywords Product_fields d then
    do productId' <- required as_int "productId" d;
    do name' <- required as_str "name" d;
    do category' <- required as_str "category" d;
    do description' <- required as_str "description" d;
    do price' <- required as_float "price" d;
    do images' <- required (as_list as_str) "images" d;
    do sellerId' <- required as_int "sellerId" d;
    do comments' <- optional (as_list as_dict) "comments" [] d;
    Ok (mkProduct productId' name' category' description' price' images' sellerId' comments')
  else Raise TypeError.

(** ** Storage *)

Definition USERS_FILE : string := "users.json".
Definition PRODUCTS_FILE : string := "products.json".

Record Storage : Type := mkStorage {
  users_file : string;
  products_file : string;
  users : list User;
  products : list Product
}.

Definition set_users (us : list User) (self : Storage) : Storage :=
  mkStorage (users_file self) (products_file self) us (products self).

Definition set_products (ps : list Product) (self : Storage) : Storage :=
  mkStorage (users_file self) (products_file self) (users self) ps.

(** [any(u.is_admin for u in users)] *)
Definition any_admin (us : list User) : bool := existsb is_admin us.

Definition default_admin (admin_id : Z) : User :=
  mkUser admin_id "admin@example.com" "" "admin" "Administrator" "" true [].

Section Persistence.
Context {Doc : Type} `{!JsonCodec Doc}.

(** The JSON documents on disk: a path that is absent does not exist. *)
Abbreviation files := (gmap string Doc).

(** The common shape of [load_users] and [load_products]. A document is a
    text that [open] and the UTF-8 decoder delivered: an [OSError] of [open],
    a [UnicodeDecodeError] of the read and a [RecursionError] of the parser
    are outside the model, which knows the parser's [JSONDecodeError] and the
    [TypeError]s of the comprehension only. *)
Definition load_collection {A} (kwargs : json → Exc A) (path : string)
    (fs : files) : Exc (list A) :=
  match fs !! path with
  | None => Ok []
  | Some doc =>
      match json_load doc with
      | None => Raise JSONDecodeError
      | Some data => do items <- py_iter data; Exc_mapM kwargs items
      end
  end.

Definition load_users (path : string) (fs : files) : Exc (list User) :=
  load_collection User_kwargs path fs.

Definition load_products (path : string) (fs : files) : Exc (list Product) :=
  load_collection Product_kwargs path fs.

Definition save_users (self : Storage) (fs : files) : files :=
  <[users_file self := json_dump (JArr (User_asdict <$> users self))]> fs.

Definition save_products (self : Storage) (fs : files) : files :=
  <[products_file self := json_dump (JArr (Product_asdict <$> products self))]> fs.

(** [Storage.__init__] *)
Definition Storage_init (users_file' products_file' : string) (fs : files)
    : Exc (Storage * files) :=
  do us <- load_users users_file' fs;
  do ps <- load_products products_file' fs;
  let self := mkStorage users_file' products_file' us ps in
  if negb (any_admin (users self)) then
    let admin_id := ensure_int_id (userId <$> users self) in
    let admin := default_admin admin_id in
    let self := set_users (users self ++ [admin]) self in
    Ok (self, save_users self fs)
  else Ok (self, fs).

(** ** Delete paths of [SecondHandApp] *)

(** [list.remove(x)]: drops the first occurrence, [ValueError] if none. *)
Fixpoint py_list_remove (x : Z) (l : list Z) : Exc (list Z) :=
  match l with
  | [] => Raise ValueError
  | y :: l' =>
      if decide (y = x) then Ok l'
      else do r <- py_list_remove x l'; Ok (y :: r)
  end.

Definition set_favorites (favs : list Z) (u : User) : User :=
  mkUser (userId u) (email u) (phone u) (password u) (nickname u) (avatar u)
         (is_admin u) favs.

(** [for u in users: if pid in u.favorites: u.favorites.remove(pid)] *)
Definition unfavorite (pid : Z) (u : User) : Exc User :=
  if bool_decide (pid ∈ favorites u) then
    do favs <- py_list_remove pid (favorites u); Ok (set_favorites favs u)
  else Ok u.

Definition cleanup_favorites (pid : Z) (us : list User) : Exc (list User) :=
  Exc_mapM (unfavorite pid) us.

(** [_ensure_login]: whatever the dialog answers, a missing login gives
    [False]. *)
Definition _ensure_login (current_user : option User) : bool :=
  match current_user with
  | None => false
  | Some _ => true
  end.

(** [_confirm_delete(product)]; [askyesno] is the answer to the
    confirmation dialog. *)
Definition _confirm_delete (current_user : option User) (askyesno : bool)
    (product : Product) (storage : Storage) (fs : files)
    : Exc (Storage * files) :=
  if negb (_ensure_login current_user) then Ok (storage, fs)
  else if askyesno then
    let storage :=
      set_products
        (filter (λ p, productId p ≠ productId product) (products storage))
        storage in
    do us <- cleanup_favorites (productId product) (users storage);
    let storage := set_users us storage in
    let fs := save_products storage fs in
    let fs := save_users storage fs in
    Ok (storage, fs)
  else Ok (storage, fs).

(** [del_user] of the admin panel; [sel] is [users_list.curselection()]. *)
Definition del_user (sel : list nat) (askyesno : bool)
    (storage : Storage) (fs : files) : Exc (Storage * files) :=
  match sel with
  | [] => Ok (storage, fs)
  | idx :: _ =>
      match users storage !! idx with
      | None => Raise IndexError
      | Some target =>
          if is_admin target then Ok (storage, fs)
          else if askyesno then
            let storage :=
              set_products
                (filter (λ p, sellerId p ≠ userId target) (products storage))
                storage in
            let storage := set_users (delete idx (users storage)) storage in
            let fs := save_products storage fs in
            let fs := save_users storage fs in
            Ok (storage, fs)
          else Ok (storage, fs)
      end
  end.

(** [del_product_admin] of the admin panel; [sel] is
    [prod_list.curselection()]. *)
Definition del_product_admin (sel : list nat) (askyesno : bool)
    (storage : Storage) (fs : files) : Exc (Storage * files) :=
  match sel with
  | [] => Ok (storage, fs)
  | idx :: _ =>
      match products storage !! idx with
      | None => Raise IndexError
      | Some target =>
          if askyesno then
            let pid := productId target in
            let storage :=
              set_products
                (filter (λ p, productId p ≠ pid) (products storage))
                storage in
            do us <- cleanup_favorites pid (users storage);
            let storage := set_users us storage in
            let fs := save_products storage fs in
            let fs := save_users storage fs in
            Ok (storage, fs)
          else Ok (storage, fs)
      end
  end.

End Persistence.

(** Referential integrity of favorites: every id in every user's favorites
    is the [productId] of some product. *)
Definition no_dangling_favorites (storage : Storage) : bool :=
  forallb
    (λ u, forallb
            (λ pid, existsb (λ p, bool_decide (productId p = pid)) (products storage))
            (favorites u))
    (users storage).

Definition admin_count (us : list User) : nat :=
  length (filter (λ u, is_admin u = true) us).

(** ** Image utilities *)

Definition IMAGES_DIR : string := "images".

(** The file tree as [os.path.exists] and [shutil.copy2] see it: every path
    that exists, as it is spelled, with what it names. *)
Inductive node : Type :=
| File (content : string)
| Dir.

Abbreviation filesystem := (gmap string node).

(** What the process can touch: the file tree and the lines it printed. *)
Record World : Type := mkWorld {
  tree : filesystem;
  stdout : list (string * exn)
}.

Definition sep : ascii := "/"%char.
Definition extsep : ascii := "."%char.
Definition backslash : ascii := ascii_of_nat 92.

Definition os_path_exists (path : string) (fs : filesystem) : bool :=
  bool_decide (is_Some (fs !! path)).

(** [posixpath.basename]: what follows the last separator. *)
Fixpoint basename_from (acc p : string) : string :=
  match p with
  | EmptyString => acc
  | String c r =>
      if decide (c = sep) then basename_from "" r
      else basename_from (acc +:+ String c "") r
  end.

Definition os_path_basename (p : string) : string := basename_from "" p.

(** [s.rfind(c)]: the last index of [c], or [-1]. *)
Fixpoint rfind_from (c : ascii) (s : string) (i found : Z) : Z :=
  match s with
  | EmptyString => found
  | String a r => rfind_from c r (i + 1) (if decide (a = c) then i else found)
  end.

Definition rfind (c : ascii) (s : string) : Z := rfind_from c s 0 (-1).

(** [s[lo:hi]] for [0 <= lo]. *)
Definition slice (s : string) (lo hi : Z) : string :=
  String.substring (Z.to_nat lo) (Z.to_nat (hi - lo)) s.

Definition str_len (s : string) : Z := Z.of_nat (String.length s).

Definition all_dots (s : string) : bool :=
  forallb (λ c, bool_decide (c = extsep)) (String.list_ascii_of_string s).

(** [posixpath.splitext]: the extension starts at the last dot of the last
    component, unless only dots precede it there. *)
Definition os_path_splitext (p : string) : string * string :=
  let sepIndex := rfind sep p in
  let dotIndex := rfind extsep p in
  if bool_decide (sepIndex < dotIndex)
     && negb (all_dots (slice p (sepIndex + 1) dotIndex))
  then (slice p 0 dotIndex, slice p dotIndex (str_len p))
  else (p, "").

Definition starts_with (c : ascii) (s : string) : bool :=
  match s with
  | String a _ => bool_decide (a = c)
  | EmptyString => false
  end.

Fixpoint ends_with (c : ascii) (s : string) : bool :=
  match s with
  | EmptyString => false
  | String a EmptyString => bool_decide (a = c)
  | String _ r => ends_with c r
  end.

(** [posixpath.join(a, b)] *)
Definition os_path_join (a b : string) : string :=
  if starts_with sep b then b
  else if bool_decide (a = "") || ends_with sep a then a +:+ b
  else a +:+ "/" +:+ b.

(** [s.replace(old, new)] for single characters. *)
Fixpoint str_replace (old new : ascii) (s : string) : string :=
  match s with
  | EmptyString => EmptyString
  | String c r =>
      String (if decide (c = old) then new else c) (str_replace old new r)
  end.

(** The f-string [f"{name}_{i}{ext}"]. *)
Definition numbered (name' ext : string) (i : Z) : string :=
  name' +:+ "_" +:+ pretty i +:+ ext.

(** [print(prefix, e)]: what it leaves on standard output, and whether the
    write raises. *)
Definition printer : Type :=
  string → exn → list (string * exn) → list (string * exn) * Exc unit.

(** A standard output that takes every line. *)
Definition print_line : printer :=
  λ prefix e out, (out ++ [(prefix, e)], Ok ()).

(** A standard output that was closed: every write raises [ValueError]. *)
Definition closed_stdout : printer :=
  λ prefix e out, (out, Raise ValueError).

Section ImageImporter.
(** [shutil.copy2(src, dst)]: whatever it does to the file tree, and
    whether it raises. *)
Variable shutil_copy2 : string → string → filesystem → filesystem * Exc unit.

(** The [while os.path.exists(...)] loop; [None] when [fuel] iterations
    did not reach a free name. *)
Fixpoint free_candidate (fuel : nat) (fs : filesystem) (name' ext : string)
    (candidate : string) (i : Z) : option string :=
  match fuel with
  | O => None
  | S fuel' =>
      if os_path_exists (os_path_join IMAGES_DIR candidate) fs
      then free_candidate fuel' fs name' ext (numbered name' ext i) (i + 1)
      else Some candidate
  end.

(** The body of the [try] block. *)
Definition copy_image_body (fuel : nat) (src_path : string) (w : World)
    : option (World * Exc (option string)) :=
  if bool_decide (src_path = "") then Some (w, Ok None)
  else if negb (os_path_exists src_path (tree w)) then Some (w, Ok None)
  else
    let basename := os_path_basename src_path in
    let '(name', ext) := os_path_splitext basename in
    match free_candidate fuel (tree w) name' ext basename 1 with
    | None => None
    | Some candidate =>
        let dst := os_path_join IMAGES_DIR candidate in
        let '(fs, r) := shutil_copy2 src_path dst (tree w) in
        let w := mkWorld fs (stdout w) in
        match r with
        | Raise e => Some (w, Raise e)
        | Ok _ =>
            Some (w, Ok (Some (str_replace backslash sep
                                 (os_path_join IMAGES_DIR candidate))))
        end
    end.

(** [copy_image_to_storage] as written: the body under
    [except Exception as e], whose handler prints and returns [None]. The
    [print] call is itself outside any [try]: when it raises, that
    exception leaves the function. *)
Definition copy_image_to_storage_printing (py_print : printer) (fuel : nat)
    (src_path : string) (w : World) : option (World * Exc (option string)) :=
  match copy_image_body fuel src_path w with
  | None => None
  | Some (w, Raise e) =>
      let '(out, printed) := py_print "copy image failed:" e (stdout w) in
      match printed with
      | Ok _ => Some (mkWorld (tree w) out, Ok None)
      | Raise e' => Some (mkWorld (tree w) out, Raise e')
      end
  | Some (w, Ok r) => Some (w, Ok r)
  end.

(** [copy_image_to_storage] run with a standard output that takes the
    line. *)
Definition copy_image_to_storage (fuel : nat) (src_path : string) (w : World)
    : option (World * Exc (option string)) :=
  copy_image_to_storage_printing print_line fuel src_path w.

End ImageImporter.

(** [c in s] *)
Fixpoint str_contains (c : ascii) (s : string) : bool :=
  match s with
  | EmptyString => false
  | String a r => bool_decide (a = c) || str_contains c r
  end.

(** The names the loop tries, in order: the base name, then the numbered
    ones from 1 on. *)
Definition nth_candidate (basename name' ext : string) (k : Z) : string :=
  if decide (k = 0) then basename else numbered name' ext k.

(** The contract of [shutil.copy2] the collision policy relies on: after a
    successful copy the destination exists. *)
Definition copy2_contract
    (copy2 : string → string → filesystem → filesystem * Exc unit) : Prop :=
  ∀ src dst fs fs',
    copy2 src dst fs = (fs', Ok ()) → os_path_exists dst fs' = true.

(** A [shutil.copy2] that copies regular files and fails on anything else. *)
Definition plain_copy2 (src dst : string) (fs : filesystem)
    : filesystem * Exc unit :=
  match fs !! src with
  | Some (File content) => (<[dst := File content]> fs, Ok ())
  | _ => (fs, Raise OSError)
  end.

(** [l] without the first occurrence of [x]; [l] itself if there is none. *)
Fixpoint remove_first (x : Z) (l : list Z) : list Z :=
  match l with
  | [] => []
  | y :: l' => if decide (y = x) then l' else y :: remove_first x l'
  end.

(** A user after product [pid] is no longer a favorite. *)
Definition unfavorited (pid : Z) (u : User) : User :=
  set_favorites (remove_first pid (favorites u)) u.

(** A codec that keeps the document as the JSON value it denotes. *)
#[export] Instance value_codec : JsonCodec json :=
  {| json_dump := λ v, v;
     json_load := λ v, Some v;
     json_load_dump := λ v, eq_refl |}.

(** ** Application logic of [SecondHandApp]

    The callbacks behind the forms. Text read from an [Entry] is an argument
    of the callback, already stripped where the code strips it. *)

Inductive dialog : Type :=
| showwarning (title message : string)
| showerror (title message : string)
| showinfo (title message : string).

(** The application state the callbacks touch. [current_user] refers to one
    of the objects in [storage.users]; it is kept as the position of that
    object in the list (a position past the end denotes no state of the
    program and is treated as no login). *)
Record App : Type := mkApp {
  storage : Storage;
  current_user : option nat
}.

Definition current_user_obj (app : App) : option User :=
  match current_user app with
  | Some cu => users (storage app) !! cu
  | None => None
  end.

(** The favorites of a user after [toggle_favorite] of product [pid]. *)
Definition toggled (pid : Z) (u : User) : Exc (User * list dialog) :=
  if bool_decide (pid ∈ favorites u) then
    do favs <- py_list_remove pid (favorites u);
    Ok (set_favorites favs u, [showinfo "提示" "已取消收藏"])
  else
    Ok (set_favorites (favorites u ++ [pid]) u, [showinfo "提示" "已加入收藏"]).

Definition comment (userId' : Z) (nickname' text : string) : dict :=
  [("userId", JInt userId'); ("nickname", JStr nickname'); ("text", JStr text)].

Definition add_comment (c : dict) (p : Product) : Product :=
  mkProduct (productId p) (name p) (category p) (description p) (price p)
            (images p) (sellerId p) (comments p ++ [c]).

(** [show_favorites]: the products listed on the favorites page. *)
Definition favorites_page (u : User) (storage : Storage) : list Product :=
  filter (λ p, productId p ∈ favorites u) (products storage).

(** [show_detail]: the seller line of the detail page. *)
Definition seller_text (product : Product) (storage : Storage) : string :=
  match list_find (λ u, userId u = sellerId product) (users storage) with
  | Some (_, seller) => nickname seller
  | None => "ID:" +:+ pretty (sellerId product)
  end.

Section AppLogic.
Context {Doc : Type} `{!JsonCodec Doc}.

(** The builtin [float(v)] on strings. *)
Variable py_float : string → Exc float.

Abbreviation files := (gmap string Doc).

Definition safe_float (v : string) (default : float) : float :=
  match py_float v with
  | Ok x => x
  | Raise _ => default
  end.

(** [submit] of [show_register] *)
Definition register_submit (email' phone' password' nickname' : string)
    (app : App) (fs : files) : App * files * list dialog :=
  if bool_decide (email' = "") || bool_decide (password' = "") then
    (app, fs, [showwarning "提示" "Email 与 Password 为必填"])
  else if existsb (λ u, bool_decide (email u = email')) (users (storage app)) then
    (app, fs, [showerror "错误" "该邮箱已被注册"])
  else
    let uid := ensure_int_id (userId <$> users (storage app)) in
    let user := mkUser uid email' phone' password' nickname' "" false [] in
    let storage' := set_users (users (storage app) ++ [user]) (storage app) in
    (mkApp storage' (Some (length (users (storage app)))),
     save_users storage' fs,
     [showinfo "成功" "注册成功并已登录"]).

(** [do_login] of [show_login] *)
Definition do_login (em pw : string) (app : App) : App * list dialog :=
  match list_find (λ u, email u = em ∧ password u = pw) (users (storage app)) with
  | Some (i, u) =>
      (mkApp (storage app) (Some i), [showinfo "成功" ("欢迎, " +:+ nickname u)])
  | None => (app, [showerror "失败" "账号或密码错误"])
  end.

(** [logout]; [askyesno] is the answer to the confirmation dialog. *)
Definition logout (askyesno : bool) (app : App) : App :=
  match current_user app with
  | Some _ => if askyesno then mkApp (storage app) None else app
  | None => app
  end.

(** [save] of [show_profile] *)
Definition profile_save (email' phone' nickname' : string) (app : App)
    (fs : files) : App * files * list dialog :=
  match current_user_obj app, current_user app with
  | Some u, Some cu =>
      let u' := updateProfile u email' phone' nickname' (avatar u) in
      let storage' := set_users (<[cu := u']> (users (storage app))) (storage app) in
      (mkApp storage' (Some cu), save_users storage' fs, [showinfo "提示" "保存成功"])
  | _, _ => (app, fs, [])
  end.

(** [submit] of [show_publish]; [seller] is the logged-in user and
    [images'] the list of imported image paths. *)
Definition publish_submit (seller : User)
    (name' category' description' price_text : string) (images' : list string)
    (storage : Storage) (fs : files) : Storage * files * list dialog :=
  if bool_decide (name' = "") then
    (storage, fs, [showwarning "提示" "名称不能为空"])
  else
    let pid := ensure_int_id (productId <$> products storage) in
    let price' := safe_float price_text (S754_zero false) in
    let p := mkProduct pid name' category' description' price' images'
                       (userId seller) [] in
    let storage' := set_products (products storage ++ [p]) storage in
    (storage', save_products storage' fs, [showinfo "成功" "商品发布成功"]).

(** [toggle_favorite(product)] *)
Definition toggle_favorite (product : Product) (app : App) (fs : files)
    : Exc (App * files * list dialog) :=
  match current_user_obj app, current_user app with
  | Some u, Some cu =>
      do r <- toggled (productId product) u;
      let storage' := set_users (<[cu := r.1]> (users (storage app))) (storage app) in
      Ok (mkApp storage' (Some cu), save_users storage' fs, r.2)
  | _, _ => Ok (app, fs, [])
  end.

(** [post_comment] of [show_detail]; the product shown is the one at
    position [shown] of [storage.products]. *)
Definition post_comment (author : User) (shown : nat) (txtc : string)
    (storage : Storage) (fs : files) : Storage * files * list dialog :=
  if bool_decide (txtc = "") then
    (storage, fs, [showwarning "提示" "留言不能为空"])
  else
    let c := comment (userId author) (nickname author) txtc in
    let storage' := set_products (alter (add_comment c) shown (products storage)) storage in
    (storage', save_products storage' fs, [showinfo "提示" "留言已发布"]).

(** [show_edit(product)] followed by its [save]; the product edited is the
    one at position [shown] of [storage.products]. *)
Definition edit_save (current_user : option User) (shown : nat)
    (name' category' description' price_text : string) (images' : list string)
    (storage : Storage) (fs : files) : Storage * files * list dialog :=
  match current_user, products storage !! shown with
  | Some u, Some product =>
      if bool_decide (sellerId product = userId u) then
        let price' := safe_float price_text (price product) in
        let product' := edit product name' category' description' price' images' in
        let storage' := set_products (<[shown := product']> (products storage)) storage in
        (storage', save_products storage' fs, [showinfo "提示" "保存成功"])
      else (storage, fs, [showerror "错误" "没有权限编辑该商品"])
  | _, _ => (storage, fs, [])
  end.

End AppLogic.

(** The integration test's stand-in for the admin user-delete: users are
    dropped by id rather than by position. *)
Definition delete_user_by_id (uid : Z) (storage : Storage) : Storage :=
  mkStorage (users_file storage) (products_file storage)
    (filter (λ u, userId u ≠ uid) (users storage))
    (filter (λ p, sellerId p ≠ uid) (products storage)).

(** Identifiers are unique within their collection. *)
Definition unique_ids (storage : Storage) : Prop :=
  NoDup (userId <$> users storage) ∧ NoDup (productId <$> products storage).

(** The favorites after a toggle. *)
Definition toggled_favorites (pid : Z) (favs : list Z) : list Z :=
  if bool_decide (pid ∈ favs) then remove_first pid favs else favs ++ [pid].

(** Every product's seller is a stored user. *)
Definition sellers_exist (storage : Storage) : Prop :=
  ∀ p, p ∈ products storage → ∃ u, u ∈ users storage ∧ userId u = sellerId p.

(** ** Sample states

    The states of the integration tests: users A (id 10) and B (id 11) with
    products P1 (seller 10) and P2 (seller 11), B having P1 among its
    favorites; and user U (id 20) with product P (id 201). *)

Definition sample_price : float := S754_finite false 1 1.

Definition user_A : User := mkUser 10 "a@b" "" "pw" "A" "" false [].
Definition user_B : User := mkUser 11 "b@b" "" "pw" "B" "" false [101].
Definition product_P1 : Product := mkProduct 101 "p1" "c" "d" sample_price [] 10 [].
Definition product_P2 : Product := mkProduct 102 "p2" "c" "d" sample_price [] 11 [].

Definition cascade_storage : Storage :=
  mkStorage USERS_FILE PRODUCTS_FILE
            [default_admin 1; user_A; user_B] [product_P1; product_P2].

Definition user_U (favs : list Z) : User := mkUser 20 "x@x" "" "pw" "X" "" false favs.
Definition product_P : Product := mkProduct 201 "px" "c" "d" sample_price [] 20 [].

Definition favorite_storage (favs : list Z) : Storage :=
  mkStorage USERS_FILE PRODUCTS_FILE [default_admin 1; user_U favs] [product_P].

(** A users document that already holds two administrators. *)
Definition user_root : User :=
  mkUser 2 "root@example.com" "" "root" "Root" "" true [].

Definition two_admins_document : json :=
  JArr [User_asdict (default_admin 1); User_asdict user_root].

Definition no_files : gmap string json := ∅.

Definition two_admins_files : gmap string json :=
  {[ USERS_FILE := two_admins_document ]}.

(** Documents in which user U lists product 201 twice. *)
Definition duplicate_favorites_files : gmap string json :=
  <[USERS_FILE :=
      JArr [User_asdict (default_admin 1); User_asdict (user_U [201; 201])]]>
    {[ PRODUCTS_FILE := JArr [Product_asdict product_P] ]}.

Definition one_user_files : gmap string json :=
  {[ USERS_FILE := JArr [User_asdict user_A] ]}.

(** A file tree where the managed directory already holds [cat.png] and
    [cat_1.png]. *)
Definition sample_tree : filesystem :=
  <["photos/cat.png" := File "new cat"]>
    (<["images/cat.png" := File "old cat"]>
       (<["images/cat_1.png" := File "older cat"]>
          (<["images" := Dir]> (<["photos" := Dir]> ∅)))).

Definition sample_world : World := mkWorld sample_tree [].

(** User B logged in on the sample state, and nobody logged in. *)
Definition sample_app : App := mkApp cascade_storage (Some 2%nat).
Definition guest_app : App := mkApp cascade_storage None.

(** User B after product P2 became a favorite too. *)
Definition user_B_both : User := set_favorites [101; 102] user_B.

(** A [float] that accepts nothing. *)
Definition no_float (v : string) : Exc float := Raise ValueError.



(** * Properties *)

(** ** The exception monad *)

Lemma Exc_mapM_ok {A B} (f : A → Exc B) (g : A → B) (l : list A) :
  (∀ x, x ∈ l → f x = Ok (g x)) → Exc_mapM f l = Ok (g <$> l).
Proof.
  induction l as [|x l IH]; intros Hf; [done|].
  cbn. rewrite Hf by left. cbn.
  rewrite IH; [done|]. intros y Hy. apply Hf. by right.
Qed.

Lemma py_max_ge_init (l : list Z) (x : Z) : x ≤ py_max x l.
Proof.
  unfold py_max. revert x.
  induction l as [|y l IH]; intros x; cbn; [lia|].
  specialize (IH (Z.max x y)). lia.
Qed.

Lemma py_max_upper (l : list Z) (x y : Z) : y ∈ x :: l → y ≤ py_max x l.
Proof.
  unfold py_max. revert x.
  induction l as [|z l IH]; intros x Hy; cbn.
  - apply list_elem_of_singleton in Hy. lia.
  - apply elem_of_cons in Hy as [->|Hy].
    + pose proof (py_max_ge_init l (Z.max x z)) as H. unfold py_max in H. lia.
    + apply elem_of_cons in Hy as [->|Hy].
      * pose proof (py_max_ge_init l (Z.max x z)) as H. unfold py_max in H. lia.
      * apply IH. by right.
Qed.

Lemma py_max_elem (l : list Z) (x : Z) : py_max x l ∈ x :: l.
Proof.
  unfold py_max. revert x.
  induction l as [|z l IH]; intros x; cbn; [by left|].
  specialize (IH (Z.max x z)).
  apply elem_of_cons in IH as [Heq|IH].
  - rewrite Heq. destruct (Z.max_spec x z) as [[_ ->]|[_ ->]].
    + right. by left.
    + by left.
  - right. by right.
Qed.

(** C6: the Identifier Allocator returns 1 for the empty list and, for a
    non-empty list, one more than its maximum, which is the least integer
    strictly above every listed id; [ensure_int_id []] is 1 and
    [ensure_int_id [1; 2; 5]] is 6. Being a function of the list alone, it
    is pure and total. *)
Theorem ensure_int_id_spec :
  ensure_int_id [] = 1 ∧
  ensure_int_id [1; 2; 5] = 6 ∧
  ∀ x l,
    let ids := x :: l in
    (∃ m, m ∈ ids ∧ (∀ y, y ∈ ids → y ≤ m) ∧ ensure_int_id ids = m + 1) ∧
    (∀ y, y ∈ ids → y < ensure_int_id ids) ∧
    (∀ n, (∀ y, y ∈ ids → y < n) → ensure_int_id ids ≤ n).
Proof.
  split; [reflexivity|]. split; [reflexivity|].
  intros x l ids. subst ids. cbn [ensure_int_id].
  pose proof (py_max_elem l x) as Hin.
  pose proof (py_max_upper l x) as Hub.
  split; [|split].
  - exists (py_max x l). auto.
  - intros y Hy. specialize (Hub y Hy). lia.
  - intros n Hn. specialize (Hn _ Hin). lia.
Qed.

(** ** Dataclasses and their dicts *)

Lemma Exc_mapM_section {A B} (f : B → Exc A) (inj : A → B) (l : list A) :
  (∀ x, f (inj x) = Ok x) → Exc_mapM f (inj <$> l) = Ok l.
Proof.
  intros Hf. induction l as [|x l IH]; [done|].
  cbn. rewrite Hf. cbn. by rewrite IH.
Qed.

Lemma as_list_fmap {A} (f : json → Exc A) (inj : A → json) (l : list A) :
  (∀ x, f (inj x) = Ok x) → as_list f (JArr (inj <$> l)) = Ok l.
Proof. apply Exc_mapM_section. Qed.

Lemma dict_get_here (k : string) (v : json) (d : dict) :
  dict_get k ((k, v) :: d) = Some v.
Proof. cbn. by rewrite decide_True. Qed.

Lemma dict_get_next (k k' : string) (v : json) (d : dict) :
  k' ≠ k → dict_get k ((k', v) :: d) = dict_get k d.
Proof. intros Hne. cbn. by rewrite decide_False. Qed.

Ltac dict_field :=
  unfold required, optional;
  rewrite ?dict_get_next by discriminate;
  rewrite dict_get_here;
  cbn [as_int as_str as_bool as_float Exc_bind].

Lemma User_kwargs_asdict (u : User) : User_kwargs (User_asdict u) = Ok u.
Proof.
  destruct u as [uid em ph pw nick av adm favs].
  unfold User_kwargs, User_asdict. cbn [as_dict Exc_bind].
  change (known_keywords User_fields _) with true. cbv iota.
  do 7 dict_field.
  unfold optional. rewrite ?dict_get_next by discriminate. rewrite dict_get_here.
  cbn [favorites]. rewrite (as_list_fmap as_int JInt) by done. done.
Qed.

Lemma Product_kwargs_asdict (p : Product) : Product_kwargs (Product_asdict p) = Ok p.
Proof.
  destruct p as [pid nm cat desc pr imgs sid cms].
  unfold Product_kwargs, Product_asdict. cbn [as_dict Exc_bind].
  change (known_keywords Product_fields _) with true. cbv iota.
  do 5 dict_field.
  unfold required. rewrite ?dict_get_next by discriminate. rewrite dict_get_here.
  cbn [images]. rewrite (as_list_fmap as_str JStr) by done. cbn [Exc_bind].
  dict_field.
  unfold optional. rewrite ?dict_get_next by discriminate. rewrite dict_get_here.
  cbn [comments]. rewrite (as_list_fmap as_dict JObj) by done. done.
Qed.

(** ** Storage: load, save and initialization *)

Section PersistenceFacts.
Context {Doc : Type} `{!JsonCodec Doc}.
Implicit Types (fs : gmap string Doc) (self storage : Storage).

Lemma load_collection_saved {A} (kwargs : json → Exc A) (asdict : A → json)
    (path : string) (items : list A) fs :
  (∀ x, kwargs (asdict x) = Ok x) →
  load_collection kwargs path (<[path := json_dump (JArr (asdict <$> items))]> fs)
  = Ok items.
Proof.
  intros Hrt. unfold load_collection.
  rewrite lookup_insert_eq, json_load_dump. cbn [py_iter Exc_bind].
  by apply Exc_mapM_section.
Qed.

Lemma load_users_absent path fs : fs !! path = None → load_users path fs = Ok [].
Proof. intros H. unfold load_users, load_collection. by rewrite H. Qed.

Lemma load_products_absent path fs :
  fs !! path = None → load_products path fs = Ok [].
Proof. intros H. unfold load_products, load_collection. by rewrite H. Qed.

(** C7: saving a collection of users (of products) and loading it back from
    the same path gives the same records, field for field and in the same
    order, whatever text the fields hold. *)
Theorem save_load_roundtrip self fs :
  load_users (users_file self) (save_users self fs) = Ok (users self) ∧
  load_products (products_file self) (save_products self fs) = Ok (products self).
Proof.
  split.
  - apply load_collection_saved, User_kwargs_asdict.
  - apply load_collection_saved, Product_kwargs_asdict.
Qed.

End PersistenceFacts.

(** ** The administrator guaranteed by initialization *)

Lemma admin_count_app (us vs : list User) :
  admin_count (us ++ vs) = (admin_count us + admin_count vs)%nat.
Proof. unfold admin_count. by rewrite filter_app, length_app. Qed.

Lemma admin_count_default (admin_id : Z) :
  admin_count [default_admin admin_id] = 1%nat.
Proof. reflexivity. Qed.

Lemma any_admin_false_count (us : list User) :
  any_admin us = false ↔ admin_count us = 0%nat.
Proof.
  unfold any_admin, admin_count. induction us as [|u us IH]; [done|].
  cbn [existsb]. rewrite filter_cons.
  destruct (is_admin u) eqn:Hu; cbn.
  - rewrite decide_True by done. cbn. split; intros; discriminate.
  - rewrite decide_False by discriminate. done.
Qed.

Lemma any_admin_true_count (us : list User) :
  any_admin us = true ↔ (0 < admin_count us)%nat.
Proof.
  destruct (any_admin us) eqn:Hany.
  - split; [intros _|done].
    destruct (admin_count us) eqn:Hc; [|lia].
    apply any_admin_false_count in Hc. congruence.
  - apply any_admin_false_count in Hany. rewrite Hany. split; [done|lia].
Qed.

Lemma any_admin_false_forall (us : list User) :
  any_admin us = false ↔ ∀ u, u ∈ us → is_admin u = false.
Proof.
  unfold any_admin. induction us as [|u us IH]; cbn [existsb].
  - split; [|done]. intros _ v Hv. by apply elem_of_nil in Hv.
  - rewrite orb_false_iff, IH. split.
    + intros [Hu Hus] v [->|Hv]%elem_of_cons; [done|by apply Hus].
    + intros Hall. split; [apply Hall; by left|].
      intros v Hv. apply Hall. by right.
Qed.

Lemma any_admin_true_exists (us : list User) :
  any_admin us = true ↔ ∃ u, u ∈ us ∧ is_admin u = true.
Proof.
  destruct (any_admin us) eqn:Hany.
  - split; [intros _|done]. unfold any_admin in Hany.
    apply existsb_exists in Hany as (u & Hu & Hflag).
    exists u. split; [by apply list_elem_of_In|done].
  - split; [done|]. intros (u & Hu & Hflag).
    rewrite any_admin_false_forall in Hany. rewrite (Hany u Hu) in Hflag. done.
Qed.

Lemma admin_filter_none (us : list User) :
  (∀ u, u ∈ us → is_admin u = false) → filter (λ u, is_admin u = true) us = [].
Proof.
  induction us as [|u us IH]; intros Hall; [done|].
  rewrite filter_cons_False.
  - apply IH. intros v Hv. apply Hall. by right.
  - rewrite (Hall u) by by left. discriminate.
Qed.

Section InitFacts.
Context {Doc : Type} `{!JsonCodec Doc}.
Implicit Types (fs : gmap string Doc) (storage : Storage).

Lemma Storage_init_no_admin uf pf fs us ps :
  load_users uf fs = Ok us → load_products pf fs = Ok ps →
  any_admin us = false →
  Storage_init uf pf fs =
    let self :=
      mkStorage uf pf (us ++ [default_admin (ensure_int_id (userId <$> us))]) ps in
    Ok (self, save_users self fs).
Proof.
  intros Hu Hp Hany. unfold Storage_init. rewrite Hu, Hp.
  cbn [Exc_bind users]. by rewrite Hany.
Qed.

Lemma Storage_init_has_admin uf pf fs us ps :
  load_users uf fs = Ok us → load_products pf fs = Ok ps →
  any_admin us = true →
  Storage_init uf pf fs = Ok (mkStorage uf pf us ps, fs).
Proof.
  intros Hu Hp Hany. unfold Storage_init. rewrite Hu, Hp.
  cbn [Exc_bind users]. by rewrite Hany.
Qed.

(** Initialization returns exactly when both documents load. *)
Lemma Storage_init_returns uf pf fs storage fs' :
  Storage_init uf pf fs = Ok (storage, fs') →
  ∃ us ps, load_users uf fs = Ok us ∧ load_products pf fs = Ok ps.
Proof.
  unfold Storage_init.
  destruct (load_users uf fs) as [us|]; [|discriminate].
  destruct (load_products pf fs) as [ps|]; [|discriminate].
  eauto.
Qed.

(** C3: when no loaded user has the admin flag, initialization appends
    exactly one default administrator (fixed email and nickname, empty phone,
    admin flag set, no favorites) whose id comes from the Identifier
    Allocator, keeps every loaded user before it, and has written the users
    document when it returns; when some loaded user has the admin flag it
    adds nobody and leaves the collection and the documents as they were. *)
Theorem Storage_init_admin_synthesis uf pf fs us ps :
  load_users uf fs = Ok us → load_products pf fs = Ok ps →
  ((∀ u, u ∈ us → is_admin u = false) →
     ∃ admin storage fs',
       Storage_init uf pf fs = Ok (storage, fs') ∧
       userId admin = ensure_int_id (userId <$> us) ∧
       email admin = "admin@example.com" ∧ nickname admin = "Administrator" ∧
       phone admin = "" ∧ is_admin admin = true ∧ favorites admin = [] ∧
       users storage = us ++ [admin] ∧ products storage = ps ∧
       admin_count (users storage) = S (admin_count us) ∧
       filter (λ u, is_admin u = true) (users storage) = [admin] ∧
       fs' !! uf = Some (json_dump (JArr (User_asdict <$> us ++ [admin]))) ∧
       load_users uf fs' = Ok (us ++ [admin])) ∧
  ((∃ u, u ∈ us ∧ is_admin u = true) →
     Storage_init uf pf fs = Ok (mkStorage uf pf us ps, fs)).
Proof.
  intros Hu Hp. split.
  - intros Hnone. pose proof Hnone as Hany.
    apply any_admin_false_forall in Hany.
    eexists (default_admin _), _, _.
    split; [by apply Storage_init_no_admin|]. cbn [users products].
    do 8 (split; [reflexivity|]).
    split; [rewrite admin_count_app, admin_count_default; lia|].
    split; [by rewrite filter_app, admin_filter_none|].
    split.
    + unfold save_users. cbn [users_file users]. apply lookup_insert_eq.
    + unfold save_users. cbn [users_file users].
      apply load_collection_saved, User_kwargs_asdict.
  - intros Hsome. apply any_admin_true_exists in Hsome.
    by apply Storage_init_has_admin.
Qed.

(** C10: the administrator that initialization synthesizes always has
    email "admin@example.com", empty phone, password "admin", nickname
    "Administrator", empty avatar, the admin flag and no favorites. *)
Theorem default_admin_fields uf pf fs us storage fs' :
  load_users uf fs = Ok us → any_admin us = false →
  Storage_init uf pf fs = Ok (storage, fs') →
  ∃ admin,
    users storage = us ++ [admin] ∧
    email admin = "admin@example.com" ∧ phone admin = "" ∧
    password admin = "admin" ∧ nickname admin = "Administrator" ∧
    avatar admin = "" ∧ is_admin admin = true ∧ favorites admin = [].
Proof.
  intros Hu Hany Hinit.
  destruct (Storage_init_returns _ _ _ _ _ Hinit) as (us' & ps & Hu' & Hp).
  rewrite (Storage_init_no_admin _ _ _ _ _ Hu Hp Hany) in Hinit.
  cbn zeta in Hinit. injection Hinit as <- _.
  eexists (default_admin _). by repeat split.
Qed.

(** C2, amended: after initialization returns, the users collection is
    the loaded users followed by what was synthesized: nothing when some
    loaded user has the admin flag, the default administrator when none has.
    So its admin-flagged users are exactly the loaded ones plus the
    synthesized one, at least one user has the admin flag, and exactly one
    has it whenever the loaded document held at most one. *)
Theorem Storage_init_admin_count uf pf fs us storage fs' :
  load_users uf fs = Ok us →
  Storage_init uf pf fs = Ok (storage, fs') →
  (∃ synthesized,
     users storage = us ++ synthesized ∧
     filter (λ u, is_admin u = true) (users storage)
       = filter (λ u, is_admin u = true) us ++ synthesized ∧
     ((∃ u, u ∈ us ∧ is_admin u = true) ∧ synthesized = []
      ∨ (∀ u, u ∈ us → is_admin u = false) ∧
        synthesized = [default_admin (ensure_int_id (userId <$> us))])) ∧
  admin_count (users storage) = Nat.max 1 (admin_count us) ∧
  (1 ≤ admin_count (users storage))%nat ∧
  ((admin_count us ≤ 1)%nat → admin_count (users storage) = 1%nat).
Proof.
  intros Hu Hinit.
  destruct (Storage_init_returns _ _ _ _ _ Hinit) as (us' & ps & Hu' & Hp).
  assert (∃ synthesized,
            users storage = us ++ synthesized ∧
            ((∃ u, u ∈ us ∧ is_admin u = true) ∧ synthesized = []
             ∨ (∀ u, u ∈ us → is_admin u = false) ∧
               synthesized = [default_admin (ensure_int_id (userId <$> us))]))
    as (synthesized & Husers & Hcase).
  { destruct (any_admin us) eqn:Hany.
    - rewrite (Storage_init_has_admin _ _ _ _ _ Hu Hp Hany) in Hinit.
      injection Hinit as <- _. exists []. cbn [users].
      split; [by rewrite app_nil_r|]. left.
      by apply any_admin_true_exists in Hany.
    - rewrite (Storage_init_no_admin _ _ _ _ _ Hu Hp Hany) in Hinit.
      cbn zeta in Hinit. injection Hinit as <- _. eexists. cbn [users].
      split; [reflexivity|]. right.
      split; [|reflexivity]. exact (proj1 (any_admin_false_forall us) Hany). }
  assert (filter (λ u, is_admin u = true) (users storage)
          = filter (λ u, is_admin u = true) us ++ synthesized) as Hfilter.
  { rewrite Husers, filter_app. f_equal.
    by destruct Hcase as [[_ ->]|[_ ->]]. }
  assert (admin_count (users storage) = Nat.max 1 (admin_count us)) as Hc.
  { unfold admin_count at 1. rewrite Hfilter, length_app.
    fold (admin_count us). destruct Hcase as [[Hsome ->]|[Hnone ->]]; cbn.
    - apply any_admin_true_exists, any_admin_true_count in Hsome. lia.
    - apply any_admin_false_forall, any_admin_false_count in Hnone. lia. }
  split; [eauto|]. rewrite Hc. lia.
Qed.

End InitFacts.

(** ** Delete paths *)

Lemma py_list_remove_elem (x : Z) (l : list Z) :
  x ∈ l → py_list_remove x l = Ok (remove_first x l).
Proof.
  induction l as [|y l IH]; intros Hin.
  - by apply elem_of_nil in Hin.
  - cbn. destruct (decide (y = x)) as [->|Hne]; [done|].
    apply elem_of_cons in Hin as [->|Hin]; [done|].
    by rewrite IH.
Qed.

Lemma remove_first_absent (x : Z) (l : list Z) : x ∉ l → remove_first x l = l.
Proof.
  induction l as [|y l IH]; intros Hnin; [done|].
  cbn. apply not_elem_of_cons in Hnin as [Hne Hnin].
  rewrite decide_False by done. by rewrite IH.
Qed.

(** The guarded [remove] never raises. *)
Lemma unfavorite_ok (pid : Z) (u : User) : unfavorite pid u = Ok (unfavorited pid u).
Proof.
  unfold unfavorite, unfavorited. case_bool_decide as Hin.
  - by rewrite py_list_remove_elem.
  - rewrite remove_first_absent by done. by destruct u.
Qed.

Lemma cleanup_favorites_ok (pid : Z) (us : list User) :
  cleanup_favorites pid us = Ok (unfavorited pid <$> us).
Proof. apply Exc_mapM_ok. intros u _. apply unfavorite_ok. Qed.

Lemma remove_first_others (x : Z) (l : list Z) :
  filter (λ y, y ≠ x) (remove_first x l) = filter (λ y, y ≠ x) l.
Proof.
  induction l as [|y l IH]; [done|].
  cbn [remove_first]. destruct (decide (y = x)) as [->|Hne].
  - by rewrite filter_cons_False by (intros H; by apply H).
  - by rewrite !filter_cons_True, IH by done.
Qed.

Lemma remove_first_split (x : Z) (l : list Z) :
  x ∈ l → ∃ l1 l2, l = l1 ++ (x :: l2) ∧ (x ∉ l1) ∧ remove_first x l = l1 ++ l2.
Proof.
  induction l as [|y l IH]; intros Hin.
  - by apply elem_of_nil in Hin.
  - cbn. destruct (decide (y = x)) as [->|Hne].
    + exists [], l. split; [done|]. split; [apply not_elem_of_nil|done].
    + apply elem_of_cons in Hin as [->|Hin]; [done|].
      destruct (IH Hin) as (l1 & l2 & -> & Hnin & ->).
      exists (y :: l1), l2. split; [done|]. split; [|done].
      apply not_elem_of_cons. split; [congruence|done].
Qed.

Lemma remove_first_NoDup (x : Z) (l : list Z) : NoDup l → x ∉ remove_first x l.
Proof.
  intros Hnd. destruct (decide (x ∈ l)) as [Hin|Hnin].
  - destruct (remove_first_split x l Hin) as (l1 & l2 & -> & Hnin1 & ->).
    apply NoDup_app in Hnd as (_ & Hdisj & Hnd2).
    apply NoDup_cons in Hnd2 as [Hnin2 _].
    apply not_elem_of_app. done.
  - by rewrite remove_first_absent.
Qed.

Lemma remove_first_subseteq (x : Z) (l : list Z) : remove_first x l ⊆ l.
Proof.
  induction l as [|y l IH]; [done|].
  cbn. destruct (decide (y = x)) as [->|Hne].
  - intros z Hz. by right.
  - intros z Hz. apply elem_of_cons in Hz as [->|Hz]; [by left|].
    right. by apply IH.
Qed.

Section DeleteFacts.
Context {Doc : Type} `{!JsonCodec Doc}.
Implicit Types (fs : gmap string Doc) (storage : Storage).

(** What both product-delete paths leave behind for product id [pid]. *)
Lemma _confirm_delete_run cu product storage fs :
  _confirm_delete (Some cu) true product storage fs =
    let storage' :=
      mkStorage (users_file storage) (products_file storage)
        (unfavorited (productId product) <$> users storage)
        (filter (λ p, productId p ≠ productId product) (products storage)) in
    Ok (storage', save_users storage' (save_products storage' fs)).
Proof.
  unfold _confirm_delete. cbn [_ensure_login negb].
  cbn [set_products users]. by rewrite cleanup_favorites_ok.
Qed.

Lemma del_product_admin_run idx sel target storage fs :
  products storage !! idx = Some target →
  del_product_admin (idx :: sel) true storage fs =
    let storage' :=
      mkStorage (users_file storage) (products_file storage)
        (unfavorited (productId target) <$> users storage)
        (filter (λ p, productId p ≠ productId target) (products storage)) in
    Ok (storage', save_users storage' (save_products storage' fs)).
Proof.
  intros Hidx. unfold del_product_admin. rewrite Hidx.
  cbn [set_products users]. by rewrite cleanup_favorites_ok.
Qed.

Lemma del_user_run idx sel target storage fs :
  users storage !! idx = Some target → is_admin target = false →
  del_user (idx :: sel) true storage fs =
    let storage' :=
      mkStorage (users_file storage) (products_file storage)
        (delete idx (users storage))
        (filter (λ p, sellerId p ≠ userId target) (products storage)) in
    Ok (storage', save_users storage' (save_products storage' fs)).
Proof.
  intros Hidx Hadm. unfold del_user. by rewrite Hidx, Hadm.
Qed.

(** C4: with a non-admin user selected and the deletion confirmed, the
    admin user-delete removes that user and every product whose
    [sellerId] is that user's id, keeps all other users and all products
    of other sellers in order, and saves both documents; with an
    admin-flagged user selected it refuses and changes nothing. *)
Theorem del_user_cascade idx sel target askyesno storage fs :
  users storage !! idx = Some target →
  (is_admin target = false →
     ∃ storage' fs',
       del_user (idx :: sel) true storage fs = Ok (storage', fs') ∧
       users storage = take idx (users storage) ++ target :: drop (S idx) (users storage) ∧
       users storage' = take idx (users storage) ++ drop (S idx) (users storage) ∧
       products storage' = filter (λ p, sellerId p ≠ userId target) (products storage) ∧
       (∀ p, p ∈ products storage' ↔ p ∈ products storage ∧ sellerId p ≠ userId target) ∧
       fs' = save_users storage' (save_products storage' fs)) ∧
  (is_admin target = true →
     del_user (idx :: sel) askyesno storage fs = Ok (storage, fs)).
Proof.
  intros Hidx. split; intros Hadm.
  - eexists _, _. split; [by apply del_user_run|].
    cbn [users products].
    split; [by rewrite <-(take_drop_middle _ _ _ Hidx) at 1|].
    split; [apply delete_take_drop|].
    split; [reflexivity|]. split; [|reflexivity].
    intros p. rewrite list_elem_of_filter. tauto.
  - unfold del_user. by rewrite Hidx, Hadm.
Qed.

End DeleteFacts.

(** ** Referential integrity of favorites *)

Lemma no_dangling_favorites_spec (storage : Storage) :
  no_dangling_favorites storage = true ↔
  ∀ u pid, u ∈ users storage → pid ∈ favorites u →
    ∃ p, p ∈ products storage ∧ productId p = pid.
Proof.
  unfold no_dangling_favorites. rewrite forallb_forall. split.
  - intros H u pid Hu Hpid.
    apply list_elem_of_In in Hu. specialize (H u Hu).
    rewrite forallb_forall in H.
    apply list_elem_of_In in Hpid. specialize (H pid Hpid).
    apply existsb_exists in H as (p & Hp & Heq).
    apply bool_decide_eq_true in Heq. apply list_elem_of_In in Hp. eauto.
  - intros H u Hu. rewrite forallb_forall. intros pid Hpid.
    apply list_elem_of_In in Hu, Hpid.
    destruct (H u pid Hu Hpid) as (p & Hp & Heq).
    apply existsb_exists. exists p. split; [by apply list_elem_of_In|].
    by apply bool_decide_eq_true.
Qed.

(** Both product-delete paths keep the favorites of duplicate-free lists
    free of dangling ids. *)
Lemma product_delete_keeps_integrity (pid : Z) (storage : Storage) :
  no_dangling_favorites storage = true →
  (∀ u, u ∈ users storage → NoDup (favorites u)) →
  no_dangling_favorites
    (mkStorage (users_file storage) (products_file storage)
       (unfavorited pid <$> users storage)
       (filter (λ p, productId p ≠ pid) (products storage))) = true.
Proof.
  rewrite !no_dangling_favorites_spec. cbn [users products].
  intros Hok Hnd u' fid Hu' Hfid.
  apply list_elem_of_fmap in Hu' as (u & -> & Hu).
  unfold unfavorited in Hfid. cbn [favorites set_favorites] in Hfid.
  assert (fid ≠ pid) as Hne.
  { intros ->. by apply (remove_first_NoDup pid (favorites u) (Hnd u Hu)). }
  apply remove_first_subseteq in Hfid.
  destruct (Hok u fid Hu Hfid) as (p & Hp & Heq).
  exists p. split; [|done]. apply list_elem_of_filter. split; [congruence|done].
Qed.

(** C1 (the cascading user delete breaks it): in a state where every
    favorite names an existing product, deleting user A by the admin
    user-delete removes A's product P1 and leaves P1's id in the favorites of
    user B, so after that delete path a favorites list contains an id that no
    product has. *)
Theorem del_user_leaves_dangling_favorite :
  no_dangling_favorites cascade_storage = true ∧
  ∃ storage' fs',
    del_user [1%nat] true cascade_storage no_files = Ok (storage', fs') ∧
    users storage' = [default_admin 1; user_B] ∧
    products storage' = [product_P2] ∧
    favorites user_B = [101] ∧
    no_dangling_favorites storage' = false.
Proof.
  split; [reflexivity|].
  eexists _, _. split; [reflexivity|]. by repeat split.
Qed.

(** ** Concrete runs *)

(** A users document with two administrators keeps both: "exactly one
    administrator after initialization" fails on it. *)
Lemma two_admins_after_init :
  ¬ (∀ (fs : gmap string json) storage fs',
       Storage_init USERS_FILE PRODUCTS_FILE fs = Ok (storage, fs') →
       admin_count (users storage) = 1%nat).
Proof.
  intros Hone.
  specialize (Hone two_admins_files _ _ eq_refl).
  vm_compute in Hone. discriminate.
Qed.

(** C5 (broken when an id is stored twice): a users document in which user
    U lists product 201 twice among the favorites loads as it is; deleting
    product 201, by the administrator or by its owner, removes the product
    and only the first 201 from U's favorites, so the id of the deleted
    product is still in a favorites list afterwards. *)
Theorem delete_product_leaves_duplicate_favorite :
  Storage_init USERS_FILE PRODUCTS_FILE duplicate_favorites_files
    = Ok (favorite_storage [201; 201], duplicate_favorites_files) ∧
  (∃ storage' fs',
     del_product_admin [0%nat] true (favorite_storage [201; 201])
       duplicate_favorites_files = Ok (storage', fs') ∧
     products storage' = [] ∧
     users storage' = [default_admin 1; user_U [201]] ∧
     no_dangling_favorites storage' = false) ∧
  (∃ storage' fs',
     _confirm_delete (Some (user_U [201; 201])) true product_P
       (favorite_storage [201; 201]) duplicate_favorites_files
       = Ok (storage', fs') ∧
     products storage' = [] ∧
     users storage' = [default_admin 1; user_U [201]] ∧
     no_dangling_favorites storage' = false).
Proof.
  split; [reflexivity|].
  split; eexists _, _; (split; [reflexivity|]); by repeat split.
Qed.

(** Initialization over a document holding only user A. *)
Lemma Storage_init_admin_count_witness :
  load_users USERS_FILE one_user_files = Ok [user_A] ∧
  Storage_init USERS_FILE PRODUCTS_FILE one_user_files
    = Ok (mkStorage USERS_FILE PRODUCTS_FILE [user_A; default_admin 11] [],
          save_users
            (mkStorage USERS_FILE PRODUCTS_FILE [user_A; default_admin 11] [])
            one_user_files) ∧
  (∃ synthesized,
     [user_A; default_admin 11] = [user_A] ++ synthesized ∧
     filter (λ u, is_admin u = true) [user_A; default_admin 11]
       = filter (λ u, is_admin u = true) [user_A] ++ synthesized ∧
     ((∃ u, u ∈ [user_A] ∧ is_admin u = true) ∧ synthesized = []
      ∨ (∀ u, u ∈ [user_A] → is_admin u = false) ∧
        synthesized = [default_admin (ensure_int_id (userId <$> [user_A]))])) ∧
  admin_count [user_A; default_admin 11] = Nat.max 1 (admin_count [user_A]) ∧
  (1 ≤ admin_count [user_A; default_admin 11])%nat ∧
  ((admin_count [user_A] ≤ 1)%nat →
   admin_count [user_A; default_admin 11] = 1%nat).
Proof.
  split; [reflexivity|]. split; [reflexivity|].
  exact (Storage_init_admin_count USERS_FILE PRODUCTS_FILE one_user_files
           [user_A]
           (mkStorage USERS_FILE PRODUCTS_FILE [user_A; default_admin 11] [])
           (save_users
              (mkStorage USERS_FILE PRODUCTS_FILE [user_A; default_admin 11] [])
              one_user_files)
           eq_refl eq_refl).
Defined.

(** Initialization over a document holding only user A appends the default
    administrator with id 11; over the document with two administrators it
    appends nobody and writes nothing. *)
Lemma Storage_init_admin_synthesis_witness :
  (load_users USERS_FILE one_user_files = Ok [user_A] ∧
   load_products PRODUCTS_FILE one_user_files = Ok [] ∧
   (∀ u, u ∈ [user_A] → is_admin u = false) ∧
   ∃ admin storage fs',
     Storage_init USERS_FILE PRODUCTS_FILE one_user_files = Ok (storage, fs') ∧
     userId admin = ensure_int_id (userId <$> [user_A]) ∧
     email admin = "admin@example.com" ∧ nickname admin = "Administrator" ∧
     phone admin = "" ∧ is_admin admin = true ∧ favorites admin = [] ∧
     users storage = [user_A] ++ [admin] ∧ products storage = [] ∧
     admin_count (users storage) = S (admin_count [user_A]) ∧
     filter (λ u, is_admin u = true) (users storage) = [admin] ∧
     fs' !! USERS_FILE
       = Some (json_dump (JArr (User_asdict <$> [user_A] ++ [admin]))) ∧
     load_users USERS_FILE fs' = Ok ([user_A] ++ [admin])) ∧
  (load_users USERS_FILE two_admins_files = Ok [default_admin 1; user_root] ∧
   load_products PRODUCTS_FILE two_admins_files = Ok [] ∧
   (∃ u, u ∈ [default_admin 1; user_root] ∧ is_admin u = true) ∧
   Storage_init USERS_FILE PRODUCTS_FILE two_admins_files
     = Ok (mkStorage USERS_FILE PRODUCTS_FILE [default_admin 1; user_root] [],
           two_admins_files)).
Proof.
  assert (∀ u, u ∈ [user_A] → is_admin u = false) as Hnone.
  { intros u Hu. by apply list_elem_of_singleton in Hu as ->. }
  assert (∃ u, u ∈ [default_admin 1; user_root] ∧ is_admin u = true) as Hsome.
  { exists (default_admin 1). split; [by left|reflexivity]. }
  split.
  - split; [reflexivity|]. split; [reflexivity|]. split; [exact Hnone|].
    exact (proj1 (Storage_init_admin_synthesis USERS_FILE PRODUCTS_FILE
                    one_user_files [user_A] [] eq_refl eq_refl) Hnone).
  - split; [reflexivity|]. split; [reflexivity|]. split; [exact Hsome|].
    exact (proj2 (Storage_init_admin_synthesis USERS_FILE PRODUCTS_FILE
                    two_admins_files [default_admin 1; user_root] []
                    eq_refl eq_refl) Hsome).
Defined.

(** First run: no document exists yet. *)
Lemma default_admin_fields_witness :
  load_users USERS_FILE no_files = Ok [] ∧
  any_admin [] = false ∧
  Storage_init USERS_FILE PRODUCTS_FILE no_files
    = Ok (mkStorage USERS_FILE PRODUCTS_FILE [default_admin 1] [],
          save_users (mkStorage USERS_FILE PRODUCTS_FILE [default_admin 1] [])
            no_files) ∧
  ∃ admin,
    [default_admin 1] = [] ++ [admin] ∧
    email admin = "admin@example.com" ∧ phone admin = "" ∧
    password admin = "admin" ∧ nickname admin = "Administrator" ∧
    avatar admin = "" ∧ is_admin admin = true ∧ favorites admin = [].
Proof.
  split; [reflexivity|]. split; [reflexivity|]. split; [reflexivity|].
  apply (default_admin_fields USERS_FILE PRODUCTS_FILE no_files []
           (mkStorage USERS_FILE PRODUCTS_FILE [default_admin 1] [])
           (save_users (mkStorage USERS_FILE PRODUCTS_FILE [default_admin 1] [])
              no_files));
    reflexivity.
Defined.

(** Deleting user A (index 1) from the sample state. *)
Lemma del_user_cascade_witness :
  users cascade_storage !! 1%nat = Some user_A ∧
  (is_admin user_A = false →
     ∃ storage' fs',
       del_user [1%nat] true cascade_storage no_files = Ok (storage', fs') ∧
       users cascade_storage
         = take 1 (users cascade_storage)
           ++ user_A :: drop 2 (users cascade_storage) ∧
       users storage'
         = take 1 (users cascade_storage) ++ drop 2 (users cascade_storage) ∧
       products storage'
         = filter (λ p, sellerId p ≠ userId user_A) (products cascade_storage) ∧
       (∀ p, p ∈ products storage'
             ↔ p ∈ products cascade_storage ∧ sellerId p ≠ userId user_A) ∧
       fs' = save_users storage' (save_products storage' no_files)) ∧
  (is_admin user_A = true →
     del_user [1%nat] false cascade_storage no_files
       = Ok (cascade_storage, no_files)).
Proof.
  split; [reflexivity|].
  apply (del_user_cascade 1 [] user_A false cascade_storage no_files).
  reflexivity.
Defined.

(** ** Strings and paths *)

Lemma str_app_nil (t : string) : "" +:+ t = t.
Proof. reflexivity. Qed.

Lemma str_app_cons (a : ascii) (s t : string) :
  String a s +:+ t = String a (s +:+ t).
Proof. reflexivity. Qed.

Ltac str_simpl := rewrite ?str_app_cons, ?str_app_nil; simpl.

Lemma str_length_app (s t : string) :
  String.length (s +:+ t) = (String.length s + String.length t)%nat.
Proof. induction s as [|a s IH]; str_simpl; [done|]. by rewrite IH. Qed.

Lemma str_app_assoc (s t u : string) : (s +:+ t) +:+ u = s +:+ t +:+ u.
Proof. induction s as [|a s IH]; str_simpl; [done|]. by rewrite IH. Qed.

Lemma str_app_inv_tail (s1 s2 t : string) : s1 +:+ t = s2 +:+ t → s1 = s2.
Proof.
  revert s2. induction s1 as [|a s1 IH]; intros [|b s2] Heq;
    rewrite ?str_app_cons, ?str_app_nil in Heq.
  - done.
  - apply (f_equal String.length) in Heq. simpl in Heq.
    rewrite str_length_app in Heq. lia.
  - apply (f_equal String.length) in Heq. simpl in Heq.
    rewrite str_length_app in Heq. lia.
  - injection Heq as -> Heq. f_equal. by apply IH.
Qed.

Lemma str_contains_app (c : ascii) (s t : string) :
  str_contains c (s +:+ t) = str_contains c s || str_contains c t.
Proof.
  induction s as [|a s IH]; str_simpl; [done|]. by rewrite IH, orb_assoc.
Qed.

Lemma str_replace_app (old new : ascii) (s t : string) :
  str_replace old new (s +:+ t) = str_replace old new s +:+ str_replace old new t.
Proof. induction s as [|a s IH]; str_simpl; [done|]. by rewrite IH. Qed.

Lemma str_replace_absent (old new : ascii) (s : string) :
  str_contains old s = false → str_replace old new s = s.
Proof.
  induction s as [|a s IH]; simpl; [done|].
  intros [Ha Hs]%orb_false_iff. apply bool_decide_eq_false in Ha.
  rewrite decide_False by done. by rewrite IH.
Qed.

Lemma str_replace_gone (old new : ascii) (s : string) :
  new ≠ old → str_contains old (str_replace old new s) = false.
Proof.
  intros Hne. induction s as [|a s IH]; simpl; [done|].
  rewrite IH, orb_false_r. apply bool_decide_eq_false.
  destruct (decide (a = old)); congruence.
Qed.

Lemma pretty_N_go_no_backslash (x : N) (s : string) :
  str_contains backslash s = false →
  str_contains backslash (pretty_N_go x s) = false.
Proof.
  revert s. induction (N.lt_wf_0 x) as [x _ IH]; intros s Hs.
  destruct (decide (x = 0)%N) as [->|Hx]; [by rewrite pretty_N_go_0|].
  rewrite pretty_N_go_step by lia. apply IH.
  - apply N.div_lt; lia.
  - simpl. rewrite Hs, orb_false_r. apply bool_decide_eq_false.
    unfold pretty_N_char. by repeat case_match.
Qed.

Lemma pretty_no_backslash (i : Z) : str_contains backslash (pretty i) = false.
Proof.
  assert (∀ n : N, str_contains backslash (pretty n) = false) as HN.
  { intros n. unfold pretty, pretty_N. case_decide; [done|].
    by apply pretty_N_go_no_backslash. }
  destruct i as [|p|p]; [done|apply (HN (N.pos p))|].
  unfold pretty, pretty_Z. cbn. apply (HN (N.pos p)).
Qed.

Lemma numbered_inj (name' ext : string) : Inj (=) (=) (numbered name' ext).
Proof.
  intros i j Heq. unfold numbered in Heq.
  apply (inj (String.append name')) in Heq.
  apply (inj (String.append "_")) in Heq.
  apply str_app_inv_tail in Heq. by apply (inj pretty).
Qed.

Lemma basename_from_no_sep (acc p : string) :
  str_contains sep acc = false → str_contains sep (basename_from acc p) = false.
Proof.
  revert acc. induction p as [|c p IH]; intros acc Hacc; simpl; [done|].
  destruct (decide (c = sep)) as [->|Hne]; [by apply IH|].
  apply IH. rewrite str_contains_app, Hacc. simpl.
  rewrite orb_false_r. by apply bool_decide_eq_false.
Qed.

Lemma basename_no_sep (p : string) : str_contains sep (os_path_basename p) = false.
Proof. by apply basename_from_no_sep. Qed.

Lemma starts_with_contains (c : ascii) (s : string) :
  starts_with c s = true → str_contains c s = true.
Proof. destruct s as [|a s]; simpl; [done|]. by intros ->. Qed.

Lemma splitext_root_start (c : ascii) (p : string) :
  starts_with c (os_path_splitext p).1 = true → starts_with c p = true.
Proof.
  unfold os_path_splitext. case_match; [|done]. cbn [fst].
  unfold slice. destruct (Z.to_nat (rfind extsep p - 0)), p; simpl; done.
Qed.

Lemma numbered_start (name' ext : string) (i : Z) :
  starts_with sep name' = false → starts_with sep (numbered name' ext i) = false.
Proof. unfold numbered. destruct name' as [|a r]; simpl; done. Qed.

Lemma join_images (b : string) :
  starts_with sep b = false → os_path_join IMAGES_DIR b = "images/" +:+ b.
Proof. intros Hb. unfold os_path_join. by rewrite Hb. Qed.

Lemma str_app_nil_r (s : string) : s +:+ "" = s.
Proof. induction s as [|a s IH]; str_simpl; [done|]. by rewrite IH. Qed.

Lemma str_replace_length (old new : ascii) (s : string) :
  String.length (str_replace old new s) = String.length s.
Proof. induction s as [|a s IH]; simpl; [done|]. by rewrite IH. Qed.

Lemma substring_all (s : string) : String.substring 0 (String.length s) s = s.
Proof. induction s as [|a s IH]; simpl; [done|]. by rewrite IH. Qed.

Lemma substring_split (s : string) (d : nat) :
  String.substring 0 d s +:+ String.substring d (String.length s - d) s = s.
Proof.
  revert d. induction s as [|a s IH]; intros [|d]; simpl; try done.
  - by rewrite str_app_nil, substring_all.
  - by rewrite str_app_cons, IH.
Qed.

Lemma rfind_from_lower (c : ascii) (s : string) (i found : Z) :
  -1 ≤ found → 0 ≤ i → -1 ≤ rfind_from c s i found.
Proof.
  revert i found. induction s as [|a s IH]; intros i found Hfound Hi; simpl; [done|].
  apply IH; [|lia]. destruct (decide (a = c)); lia.
Qed.

(** [root + ext == p], as the library documents for [splitext]. *)
Lemma splitext_app (p : string) :
  (os_path_splitext p).1 +:+ (os_path_splitext p).2 = p.
Proof.
  unfold os_path_splitext.
  destruct (bool_decide (rfind sep p < rfind extsep p)
            && negb (all_dots (slice p (rfind sep p + 1) (rfind extsep p))))
    eqn:Hcond; cbn [fst snd]; [|apply str_app_nil_r].
  apply andb_true_iff in Hcond as [Hlt%bool_decide_eq_true _].
  assert (-1 ≤ rfind sep p) as Hsep by (by apply rfind_from_lower).
  unfold slice, str_len.
  replace (Z.to_nat 0) with 0%nat by done.
  replace (Z.to_nat (rfind extsep p - 0)) with (Z.to_nat (rfind extsep p))
    by (f_equal; lia).
  replace (Z.to_nat (Z.of_nat (String.length p) - rfind extsep p))
    with (String.length p - Z.to_nat (rfind extsep p))%nat by lia.
  apply substring_split.
Qed.

(** ** The candidate loop *)

Lemma os_path_exists_dom (p : string) (fs : filesystem) :
  os_path_exists p fs = true ↔ p ∈ dom fs.
Proof.
  unfold os_path_exists. rewrite bool_decide_eq_true. symmetry. apply elem_of_dom.
Qed.

Lemma managed_path_inj (name' ext : string) (i j : Z) :
  starts_with sep name' = false →
  os_path_join IMAGES_DIR (numbered name' ext i)
    = os_path_join IMAGES_DIR (numbered name' ext j) →
  i = j.
Proof.
  intros Hname Heq.
  rewrite !join_images in Heq by by apply numbered_start.
  apply (inj (String.append "images/")) in Heq.
  by apply numbered_inj in Heq.
Qed.

(** What the loop returns is free, and every name tried before it exists. *)
Lemma free_candidate_sound (fs : filesystem) (name' ext : string) :
  ∀ fuel candidate i c,
    free_candidate fuel fs name' ext candidate i = Some c →
    os_path_exists (os_path_join IMAGES_DIR c) fs = false ∧
    (c = candidate ∨
     os_path_exists (os_path_join IMAGES_DIR candidate) fs = true ∧
     ∃ k, i ≤ k ∧ c = numbered name' ext k ∧
          ∀ j, i ≤ j < k →
               os_path_exists (os_path_join IMAGES_DIR (numbered name' ext j)) fs = true).
Proof.
  induction fuel as [|fuel IH]; intros candidate i c Hrun; [done|].
  cbn [free_candidate] in Hrun.
  destruct (os_path_exists (os_path_join IMAGES_DIR candidate) fs) eqn:Hex.
  - destruct (IH _ _ _ Hrun) as [Hfree Hwhich]. split; [done|]. right.
    split; [done|]. destruct Hwhich as [->|(Hi & k & Hk & -> & Hbefore)].
    + exists i. split; [lia|]. split; [done|]. intros j Hj. lia.
    + exists k. split; [lia|]. split; [done|]. intros j Hj.
      destruct (decide (j = i)) as [->|Hne]; [done|]. apply Hbefore. lia.
  - injection Hrun as <-. split; [done|]. by left.
Qed.

(** The loop ends before it has tried more names than there are paths. *)
Lemma free_candidate_numbered_total (fs : filesystem) (name' ext : string) :
  starts_with sep name' = false →
  ∀ fuel i (seen : gset string),
    seen ⊆ dom fs →
    (∀ j, i ≤ j → os_path_join IMAGES_DIR (numbered name' ext j) ∉ seen) →
    (size fs < size seen + fuel)%nat →
    is_Some (free_candidate fuel fs name' ext (numbered name' ext i) (i + 1)).
Proof.
  intros Hname. induction fuel as [|fuel IH]; intros i seen Hsub Hfresh Hsize.
  - apply subseteq_size in Hsub. rewrite size_dom in Hsub. lia.
  - cbn [free_candidate].
    destruct (os_path_exists (os_path_join IMAGES_DIR (numbered name' ext i)) fs)
      eqn:Hex; [|done].
    apply os_path_exists_dom in Hex.
    apply (IH (i + 1) ({[os_path_join IMAGES_DIR (numbered name' ext i)]} ∪ seen)).
    + apply union_subseteq. split; [|done]. by apply singleton_subseteq_l.
    + intros j Hj. apply not_elem_of_union. split; [|apply Hfresh; lia].
      rewrite elem_of_singleton. intros Heq.
      apply managed_path_inj in Heq; [lia|done].
    + rewrite size_union, size_singleton; [lia|].
      apply disjoint_singleton_l, Hfresh. lia.
Qed.

Lemma free_candidate_total (fs : filesystem) (name' ext basename : string) (fuel : nat) :
  starts_with sep name' = false →
  (size fs + 1 < fuel)%nat →
  is_Some (free_candidate fuel fs name' ext basename 1).
Proof.
  intros Hname Hfuel. destruct fuel as [|fuel]; [lia|].
  cbn [free_candidate].
  destruct (os_path_exists (os_path_join IMAGES_DIR basename) fs); [|done].
  apply (free_candidate_numbered_total fs name' ext Hname fuel 1 ∅).
  - apply empty_subseteq.
  - intros j _. apply not_elem_of_empty.
  - rewrite size_empty. lia.
Qed.

Lemma splitext_basename_start (src_path : string) :
  starts_with sep (os_path_splitext (os_path_basename src_path)).1 = false.
Proof.
  destruct (starts_with sep (os_path_splitext (os_path_basename src_path)).1)
    eqn:Hstart; [|done].
  apply splitext_root_start, starts_with_contains in Hstart.
  by rewrite basename_no_sep in Hstart.
Qed.

(** ** The image importer *)

Section ImporterFacts.
Variable copy2 : string → string → filesystem → filesystem * Exc unit.
Implicit Types (w : World) (src_path : string).

Lemma copy_image_empty fuel w :
  copy_image_to_storage copy2 fuel "" w = Some (w, Ok None).
Proof. reflexivity. Qed.

Lemma copy_image_missing fuel src_path w :
  os_path_exists src_path (tree w) = false →
  copy_image_to_storage copy2 fuel src_path w = Some (w, Ok None).
Proof.
  intros Hex. unfold copy_image_to_storage, copy_image_to_storage_printing, print_line,
    copy_image_body.
  case_bool_decide; [done|]. by rewrite Hex.
Qed.

(** Past the two guards, the importer copies to the name the loop found. *)
Lemma copy_image_run fuel src_path w candidate :
  src_path ≠ "" → os_path_exists src_path (tree w) = true →
  free_candidate fuel (tree w)
    (os_path_splitext (os_path_basename src_path)).1
    (os_path_splitext (os_path_basename src_path)).2
    (os_path_basename src_path) 1 = Some candidate →
  copy_image_to_storage copy2 fuel src_path w =
    let dst := os_path_join IMAGES_DIR candidate in
    let res := copy2 src_path dst (tree w) in
    Some (match res.2 with
          | Ok _ =>
              (mkWorld res.1 (stdout w),
               Ok (Some (str_replace backslash sep dst)))
          | Raise e =>
              (mkWorld res.1 (stdout w ++ [("copy image failed:", e)]),
               Ok None)
          end).
Proof.
  intros Hsrc Hex Hfree. unfold copy_image_to_storage, copy_image_to_storage_printing, print_line,
    copy_image_body.
  rewrite bool_decide_eq_false_2 by done. rewrite Hex. cbn [negb].
  destruct (os_path_splitext (os_path_basename src_path)) as [name' ext].
  cbn [fst snd] in Hfree. rewrite Hfree. cbn zeta.
  destruct (copy2 src_path (os_path_join IMAGES_DIR candidate) (tree w))
    as [fs [[]|e]]; reflexivity.
Qed.

(** A returned path comes from a successful copy to a name the loop found. *)
Lemma copy_image_returned fuel src_path w w' path :
  copy_image_to_storage copy2 fuel src_path w = Some (w', Ok (Some path)) →
  ∃ candidate,
    src_path ≠ "" ∧ os_path_exists src_path (tree w) = true ∧
    free_candidate fuel (tree w)
      (os_path_splitext (os_path_basename src_path)).1
      (os_path_splitext (os_path_basename src_path)).2
      (os_path_basename src_path) 1 = Some candidate ∧
    copy2 src_path (os_path_join IMAGES_DIR candidate) (tree w) = (tree w', Ok ()) ∧
    path = str_replace backslash sep (os_path_join IMAGES_DIR candidate).
Proof.
  intros Hrun.
  destruct (decide (src_path = "")) as [->|Hsrc].
  { rewrite copy_image_empty in Hrun. discriminate. }
  destruct (os_path_exists src_path (tree w)) eqn:Hex.
  2:{ rewrite copy_image_missing in Hrun by done. discriminate. }
  destruct (free_candidate fuel (tree w)
              (os_path_splitext (os_path_basename src_path)).1
              (os_path_splitext (os_path_basename src_path)).2
              (os_path_basename src_path) 1) as [candidate|] eqn:Hfree.
  - rewrite (copy_image_run _ _ _ _ Hsrc Hex Hfree) in Hrun. cbn zeta in Hrun.
    destruct (copy2 src_path (os_path_join IMAGES_DIR candidate) (tree w))
      as [fs [[]|e]] eqn:Hcopy; cbn [fst snd] in Hrun; [|discriminate].
    injection Hrun as <- <-. exists candidate. by repeat split.
  - unfold copy_image_to_storage, copy_image_to_storage_printing, print_line,
    copy_image_body in Hrun.
    rewrite bool_decide_eq_false_2 in Hrun by done.
    rewrite Hex in Hrun. cbn [negb] in Hrun.
    destruct (os_path_splitext (os_path_basename src_path)) as [name' ext].
    cbn [fst snd] in Hfree. rewrite Hfree in Hrun. discriminate.
Qed.

Lemma copy_image_body_returns fuel src_path w :
  (size (tree w) + 1 < fuel)%nat →
  is_Some (copy_image_body copy2 fuel src_path w).
Proof.
  intros Hfuel. unfold copy_image_body.
  case_bool_decide; [done|].
  destruct (os_path_exists src_path (tree w)); cbn [negb]; [|done].
  pose proof (splitext_basename_start src_path) as Hname.
  destruct (os_path_splitext (os_path_basename src_path)) as [name' ext].
  cbn [fst] in Hname.
  destruct (free_candidate_total (tree w) name' ext (os_path_basename src_path)
              fuel Hname Hfuel) as [candidate ->].
  destruct (copy2 src_path (os_path_join IMAGES_DIR candidate) (tree w))
    as [fs [[]|e]]; done.
Qed.

(** Once the candidate loop has run to its end the importer comes back:
    with [None] for an empty or missing source, and with an exception only
    when the copy raised and the handler's [print] raised in turn; with a
    [print] that never raises it always returns. *)
Lemma copy_image_printing_returns (py_print : printer) fuel src_path w :
  (size (tree w) + 1 < fuel)%nat →
  ∃ w' res,
    copy_image_to_storage_printing copy2 py_print fuel src_path w
      = Some (w', res) ∧
    (src_path = "" → res = Ok None ∧ w' = w) ∧
    (os_path_exists src_path (tree w) = false → res = Ok None ∧ w' = w) ∧
    (∀ e', res = Raise e' →
       ∃ w1 e,
         copy_image_body copy2 fuel src_path w = Some (w1, Raise e) ∧
         (py_print "copy image failed:" e (stdout w1)).2 = Raise e') ∧
    ((∀ e out, (py_print "copy image failed:" e out).2 = Ok ()) →
       ∃ r, res = Ok r).
Proof.
  intros Hfuel. unfold copy_image_to_storage_printing.
  destruct (copy_image_body_returns fuel src_path w Hfuel) as [[w1 res1] Hbody].
  assert (src_path = "" ∨ os_path_exists src_path (tree w) = false →
          res1 = Ok None ∧ w1 = w) as Hguard.
  { intros Hcase. unfold copy_image_body in Hbody.
    case_bool_decide as Hsrc; [by injection Hbody as <- <-|].
    destruct Hcase as [?|Hex]; [done|]. rewrite Hex in Hbody.
    by injection Hbody as <- <-. }
  rewrite Hbody. destruct res1 as [r|e].
  - exists w1, (Ok r). split; [done|].
    split; [intros ?; destruct Hguard as [[= <-] <-]; auto|].
    split; [intros ?; destruct Hguard as [[= <-] <-]; auto|].
    split; [discriminate|eauto].
  - assert (src_path ≠ "" ∧ os_path_exists src_path (tree w) = true) as [??].
    { split.
      - intros ->. by destruct Hguard as [? _]; [left|].
      - destruct (os_path_exists src_path (tree w)) eqn:Hex; [done|].
        by destruct Hguard as [? _]; [right|]. }
    destruct (py_print "copy image failed:" e (stdout w1)) as [out printed]
      eqn:Hprint.
    destruct printed as [[]|e'].
    + eexists _, _. split; [reflexivity|]. split; [done|].
      split; [congruence|]. split; [discriminate|eauto].
    + eexists _, _. split; [reflexivity|]. split; [done|].
      split; [congruence|]. split.
      * intros e'' [= <-]. exists w1, e. by rewrite Hprint.
      * intros Hnever. specialize (Hnever e (stdout w1)).
        rewrite Hprint in Hnever. discriminate.
Qed.

End ImporterFacts.

Lemma returned_path_inj (name' ext : string) (i j : Z) :
  starts_with sep name' = false →
  str_replace backslash sep (os_path_join IMAGES_DIR (numbered name' ext i))
    = str_replace backslash sep (os_path_join IMAGES_DIR (numbered name' ext j)) →
  i = j.
Proof.
  intros Hname Heq.
  rewrite !join_images in Heq by by apply numbered_start.
  unfold numbered in Heq. rewrite !str_replace_app in Heq.
  apply (inj (String.append _)) in Heq.
  apply (inj (String.append _)) in Heq.
  apply (inj (String.append _)) in Heq.
  apply str_app_inv_tail in Heq.
  rewrite !str_replace_absent in Heq by apply pretty_no_backslash.
  by apply (inj pretty).
Qed.

(** The base name and a numbered name never give the same returned path:
    the numbered one is longer. *)
Lemma returned_path_base_numbered (name' ext : string) (j : Z) :
  starts_with sep name' = false → starts_with sep (name' +:+ ext) = false →
  str_replace backslash sep (os_path_join IMAGES_DIR (name' +:+ ext))
    ≠ str_replace backslash sep (os_path_join IMAGES_DIR (numbered name' ext j)).
Proof.
  intros Hname Hbase Heq.
  rewrite join_images in Heq by done.
  rewrite join_images in Heq by by apply numbered_start.
  apply (f_equal String.length) in Heq.
  rewrite !str_replace_length in Heq. unfold numbered in Heq.
  rewrite !str_length_app in Heq. simpl in Heq. lia.
Qed.

Lemma returned_path_nth_inj (name' ext : string) (i j : Z) :
  starts_with sep name' = false → starts_with sep (name' +:+ ext) = false →
  str_replace backslash sep
    (os_path_join IMAGES_DIR (nth_candidate (name' +:+ ext) name' ext i))
  = str_replace backslash sep
      (os_path_join IMAGES_DIR (nth_candidate (name' +:+ ext) name' ext j)) →
  i = j.
Proof.
  intros Hname Hbase. unfold nth_candidate.
  destruct (decide (i = 0)) as [->|Hi], (decide (j = 0)) as [->|Hj]; intros Heq.
  - done.
  - by apply returned_path_base_numbered in Heq.
  - symmetry in Heq. by apply returned_path_base_numbered in Heq.
  - by apply returned_path_inj in Heq.
Qed.

(** The loop returns the first name of the sequence that is free. *)
Lemma free_candidate_first_free (fs : filesystem) (basename name' ext : string)
    (fuel : nat) (c : string) :
  free_candidate fuel fs name' ext basename 1 = Some c →
  ∃ k, 0 ≤ k ∧ c = nth_candidate basename name' ext k ∧
       os_path_exists (os_path_join IMAGES_DIR c) fs = false ∧
       ∀ j, 0 ≤ j < k →
            os_path_exists
              (os_path_join IMAGES_DIR (nth_candidate basename name' ext j)) fs
            = true.
Proof.
  intros Hfree.
  destruct (free_candidate_sound _ _ _ _ _ _ _ Hfree) as [Hfreec Hwhich].
  destruct Hwhich as [->|(Hbase & k & Hk & -> & Hbefore)].
  - exists 0. split; [done|]. split; [done|]. split; [done|]. intros j Hj. lia.
  - exists k. split; [lia|]. unfold nth_candidate.
    rewrite decide_False by lia. split; [done|]. split; [done|].
    intros j Hj. destruct (decide (j = 0)) as [->|Hne]; [done|].
    apply Hbefore. lia.
Qed.

Lemma plain_copy2_contract : copy2_contract plain_copy2.
Proof.
  intros src dst fs fs' Hcopy. unfold plain_copy2 in Hcopy.
  destruct (fs !! src) as [[content|]|]; try discriminate.
  injection Hcopy as <-.
  apply os_path_exists_dom. rewrite dom_insert_L. set_solver.
Qed.

Section CollisionPolicy.
Variable copy2 : string → string → filesystem → filesystem * Exc unit.
Hypothesis copy2_ok : copy2_contract copy2.

(** C9: the importer copies to the first name of the sequence base name,
    [name_1.ext], [name_2.ext], ... under which nothing exists in the managed
    directory, so when the base name is taken it is the first free numbered
    name; nothing existed at the destination before the copy; the path it
    returns is the destination with forward slashes and holds no backslash;
    and importing the same source again returns a different path. *)
Theorem import_collision_policy fuel src_path w :
  src_path ≠ "" → os_path_exists src_path (tree w) = true →
  (size (tree w) + 1 < fuel)%nat →
  let basename := os_path_basename src_path in
  let name' := (os_path_splitext basename).1 in
  let ext := (os_path_splitext basename).2 in
  ∃ k dst w' r,
    0 ≤ k ∧
    dst = os_path_join IMAGES_DIR (nth_candidate basename name' ext k) ∧
    dst = "images/" +:+ nth_candidate basename name' ext k ∧
    (os_path_exists (os_path_join IMAGES_DIR basename) (tree w) = true →
       1 ≤ k ∧ dst = "images/" +:+ name' +:+ "_" +:+ pretty k +:+ ext) ∧
    (∀ j, 0 ≤ j < k →
       os_path_exists
         (os_path_join IMAGES_DIR (nth_candidate basename name' ext j)) (tree w)
       = true) ∧
    os_path_exists dst (tree w) = false ∧
    copy_image_to_storage copy2 fuel src_path w = Some (w', Ok r) ∧
    tree w' = (copy2 src_path dst (tree w)).1 ∧
    ((copy2 src_path dst (tree w)).2 = Ok () →
       r = Some (str_replace backslash sep dst)) ∧
    (∀ path, r = Some path →
       path = str_replace backslash sep dst ∧
       str_contains backslash path = false ∧
       ∀ fuel2 w'' path2,
         copy_image_to_storage copy2 fuel2 src_path w'
           = Some (w'', Ok (Some path2)) →
         path2 ≠ path).
Proof.
  intros Hsrc Hex Hfuel basename name' ext.
  pose proof (splitext_basename_start src_path) as Hname. fold basename name' in Hname.
  assert (name' +:+ ext = basename) as Hsplit by apply splitext_app.
  assert (starts_with sep basename = false) as Hbase.
  { destruct (starts_with sep basename) eqn:Hstart; [|done].
    apply starts_with_contains in Hstart.
    unfold basename in Hstart. by rewrite basename_no_sep in Hstart. }
  assert (∀ k, starts_with sep (nth_candidate basename name' ext k) = false)
    as Hstart.
  { intros k. unfold nth_candidate. case_decide; [done|]. by apply numbered_start. }
  destruct (free_candidate_total (tree w) name' ext basename fuel Hname Hfuel)
    as [c Hfree].
  destruct (free_candidate_first_free _ _ _ _ _ _ Hfree)
    as (k & Hk & -> & Hfreec & Hbefore).
  pose proof (copy_image_run copy2 _ _ _ _ Hsrc Hex Hfree) as Hrun.
  cbn zeta in Hrun.
  exists k, (os_path_join IMAGES_DIR (nth_candidate basename name' ext k)).
  destruct (copy2 src_path
              (os_path_join IMAGES_DIR (nth_candidate basename name' ext k))
              (tree w)) as [fs res] eqn:Hcopy.
  cbn [fst snd] in Hrun |- *.
  assert (os_path_exists (os_path_join IMAGES_DIR basename) (tree w) = true →
          1 ≤ k ∧
          os_path_join IMAGES_DIR (nth_candidate basename name' ext k)
          = "images/" +:+ name' +:+ "_" +:+ pretty k +:+ ext) as Htaken.
  { intros Htaken. assert (k ≠ 0) as Hk0.
    { intros ->. unfold nth_candidate in Hfreec.
      rewrite decide_True in Hfreec by done. congruence. }
    split; [lia|]. rewrite join_images by done.
    unfold nth_candidate. by rewrite decide_False by done. }
  destruct res as [[]|e].
  - eexists _, _. split; [done|]. split; [done|].
    split; [by apply join_images|]. split; [done|]. split; [done|].
    split; [done|]. split; [exact Hrun|]. split; [done|]. split; [done|].
    intros path [= <-]. split; [done|].
    split; [by apply str_replace_gone|].
    intros fuel2 w'' path2 Hrun2 Heq. cbn [tree] in Hrun2.
    pose proof (copy2_ok _ _ _ _ Hcopy) as Hdst_ex.
    destruct (copy_image_returned copy2 _ _ _ _ _ Hrun2)
      as (c2 & _ & _ & Hfree2 & _ & ->).
    cbn [tree] in Hfree2. fold basename name' ext in Hfree2.
    destruct (free_candidate_first_free _ _ _ _ _ _ Hfree2)
      as (k2 & _ & -> & Hfree2c & _).
    rewrite <-Hsplit in Heq, Hbase.
    apply returned_path_nth_inj in Heq; [|done..]. subst k2.
    rewrite Hdst_ex in Hfree2c. discriminate.
  - eexists _, _. split; [done|]. split; [done|].
    split; [by apply join_images|]. split; [done|]. split; [done|].
    split; [done|]. split; [exact Hrun|]. split; [done|].
    split; [discriminate|]. intros path [=].
Qed.

End CollisionPolicy.

Example import_cat :
  ∃ w', copy_image_to_storage plain_copy2 7 "photos/cat.png" sample_world
        = Some (w', Ok (Some "images/cat_2.png")).
Proof. eexists. vm_compute. reflexivity. Qed.

Example import_directory :
  ∃ w', copy_image_to_storage plain_copy2 7 "photos" sample_world
        = Some (w', Ok None)
        ∧ stdout w' = [("copy image failed:", OSError)].
Proof. eexists. split; vm_compute; reflexivity. Qed.

(** C8 (broken when the diagnostic cannot be printed): importing a
    directory makes the copy raise; with a standard output that takes the
    line the importer prints it and returns [None], but with a closed
    standard output the handler's [print] raises in turn and that
    [ValueError] leaves the importer instead of [None]. *)
Theorem copy_image_print_failure_escapes :
  (plain_copy2 "photos" (os_path_join IMAGES_DIR "photos") sample_tree).2
    = Raise OSError ∧
  copy_image_to_storage_printing plain_copy2 print_line 7 "photos" sample_world
    = Some (mkWorld sample_tree [("copy image failed:", OSError)], Ok None) ∧
  copy_image_to_storage_printing plain_copy2 closed_stdout 7 "photos" sample_world
    = Some (sample_world, Raise ValueError).
Proof. repeat split; vm_compute; reflexivity. Qed.

(** Importing [photos/cat.png] when [cat.png] and [cat_1.png] are taken. *)
Lemma import_collision_policy_witness :
  "photos/cat.png" ≠ "" ∧
  os_path_exists "photos/cat.png" (tree sample_world) = true ∧
  (size (tree sample_world) + 1 < 7)%nat ∧
  ∃ k dst w' r,
    0 ≤ k ∧
    dst = os_path_join IMAGES_DIR (nth_candidate "cat.png" "cat" ".png" k) ∧
    dst = "images/" +:+ nth_candidate "cat.png" "cat" ".png" k ∧
    (os_path_exists (os_path_join IMAGES_DIR "cat.png") (tree sample_world) = true →
       1 ≤ k ∧ dst = "images/" +:+ "cat" +:+ "_" +:+ pretty k +:+ ".png") ∧
    (∀ j, 0 ≤ j < k →
       os_path_exists
         (os_path_join IMAGES_DIR (nth_candidate "cat.png" "cat" ".png" j))
         (tree sample_world) = true) ∧
    os_path_exists dst (tree sample_world) = false ∧
    copy_image_to_storage plain_copy2 7 "photos/cat.png" sample_world
      = Some (w', Ok r) ∧
    tree w' = (plain_copy2 "photos/cat.png" dst (tree sample_world)).1 ∧
    ((plain_copy2 "photos/cat.png" dst (tree sample_world)).2 = Ok () →
       r = Some (str_replace backslash sep dst)) ∧
    (∀ path, r = Some path →
       path = str_replace backslash sep dst ∧
       str_contains backslash path = false ∧
       ∀ fuel2 w'' path2,
         copy_image_to_storage plain_copy2 fuel2 "photos/cat.png" w'
           = Some (w'', Ok (Some path2)) →
         path2 ≠ path).
Proof.
  assert ("photos/cat.png" ≠ "") as Hsrc by discriminate.
  assert (os_path_exists "photos/cat.png" (tree sample_world) = true) as Hex
    by reflexivity.
  assert (size (tree sample_world) + 1 < 7)%nat as Hfuel by (vm_compute; lia).
  split; [exact Hsrc|]. split; [exact Hex|]. split; [exact Hfuel|].
  exact (import_collision_policy plain_copy2 plain_copy2_contract 7
           "photos/cat.png" sample_world Hsrc Hex Hfuel).
Defined.

(** * Further properties *)

(** ** Allocation *)

Lemma py_max_snoc (x y : Z) (l : list Z) :
  py_max x (l ++ [y]) = Z.max (py_max x l) y.
Proof. unfold py_max. by rewrite foldl_app. Qed.

Lemma ensure_int_id_above (ids : list Z) (y : Z) :
  y ∈ ids → y < ensure_int_id ids.
Proof.
  destruct ids as [|x l]; intros Hy; [by apply elem_of_nil in Hy|].
  cbn [ensure_int_id]. pose proof (py_max_upper l x y Hy). lia.
Qed.

Lemma ensure_int_id_fresh (ids : list Z) : ensure_int_id ids ∉ ids.
Proof. intros Hin. apply ensure_int_id_above in Hin. lia. Qed.

(** X1: allocating against the collection grown by the id just allocated
    gives the next integer, so successive allocations are consecutive. *)
Theorem ensure_int_id_successive (ids : list Z) :
  ensure_int_id (ids ++ [ensure_int_id ids]) = ensure_int_id ids + 1.
Proof.
  destruct ids as [|x l]; [reflexivity|].
  cbn [app ensure_int_id]. rewrite py_max_snoc. lia.
Qed.

(** ** Registration and login *)

Section AppFacts.
Context {Doc : Type} `{!JsonCodec Doc}.
Implicit Types (fs : gmap string Doc) (app : App).

Lemma email_taken_spec (em : string) (us : list User) :
  existsb (λ u, bool_decide (email u = em)) us = false ↔ em ∉ email <$> us.
Proof.
  induction us as [|u us IH]; cbn [existsb fmap list_fmap].
  - split; [intros _; apply not_elem_of_nil|done].
  - rewrite orb_false_iff, IH, not_elem_of_cons, bool_decide_eq_false.
    split; intros [??]; split; congruence.
Qed.

Lemma register_submit_accepted email' phone' password' nickname' app fs :
  email' ≠ "" → password' ≠ "" → email' ∉ email <$> users (storage app) →
  register_submit email' phone' password' nickname' app fs =
    let user :=
      mkUser (ensure_int_id (userId <$> users (storage app)))
             email' phone' password' nickname' "" false [] in
    let storage' := set_users (users (storage app) ++ [user]) (storage app) in
    (mkApp storage' (Some (length (users (storage app)))),
     save_users storage' fs, [showinfo "成功" "注册成功并已登录"]).
Proof.
  intros Hem Hpw Hfree. unfold register_submit.
  rewrite !bool_decide_eq_false_2 by done. cbn [orb].
  apply email_taken_spec in Hfree. by rewrite Hfree.
Qed.

Lemma register_submit_cases email' phone' password' nickname' app fs :
  (register_submit email' phone' password' nickname' app fs).1.1 = app ∨
  email' ≠ "" ∧ password' ≠ "" ∧ (email' ∉ email <$> users (storage app)) ∧
  (register_submit email' phone' password' nickname' app fs).1.1 =
    mkApp (set_users
             (users (storage app)
              ++ [mkUser (ensure_int_id (userId <$> users (storage app)))
                         email' phone' password' nickname' "" false []])
             (storage app))
          (Some (length (users (storage app)))).
Proof.
  unfold register_submit.
  destruct (bool_decide (email' = "")) eqn:Hem; [by left|].
  destruct (bool_decide (password' = "")) eqn:Hpw; [by left|]. cbn [orb].
  destruct (existsb _ _) eqn:Htaken; [by left|]. right.
  apply bool_decide_eq_false in Hem, Hpw. apply email_taken_spec in Htaken. done.
Qed.

(** X2: a registration with non-empty email and password and an email no
    stored user has appends one user with the entered fields, no avatar, no
    admin flag, no favorites and an id above every stored id; that user
    becomes the logged-in user, the products are untouched and the users
    document is written and loads back to the new list. *)
Theorem register_submit_new email' phone' password' nickname' app fs :
  email' ≠ "" → password' ≠ "" → email' ∉ email <$> users (storage app) →
  ∃ user app' fs' shown,
    register_submit email' phone' password' nickname' app fs = (app', fs', shown) ∧
    user = mkUser (ensure_int_id (userId <$> users (storage app)))
                  email' phone' password' nickname' "" false [] ∧
    users (storage app') = users (storage app) ++ [user] ∧
    (∀ u, u ∈ users (storage app) → userId u < userId user) ∧
    current_user_obj app' = Some user ∧
    products (storage app') = products (storage app) ∧
    load_users (users_file (storage app')) fs' = Ok (users (storage app) ++ [user]).
Proof.
  intros Hem Hpw Hfree. eexists _, _, _, _.
  split; [by apply register_submit_accepted|]. split; [reflexivity|].
  cbn [storage users set_users products]. split; [reflexivity|].
  split.
  { intros u Hu. cbn [userId]. apply ensure_int_id_above.
    apply list_elem_of_fmap. eauto. }
  split.
  { unfold current_user_obj. cbn [current_user storage users set_users].
    rewrite lookup_app_r by done. by rewrite Nat.sub_diag. }
  split; [reflexivity|].
  unfold save_users. cbn [users_file users set_users].
  apply load_collection_saved, User_kwargs_asdict.
Qed.

(** X3: whatever is entered, registration keeps user ids unique and emails
    unique, changes neither the number of administrators nor the products,
    and leaves every favorite pointing at a product. *)
Theorem register_submit_invariants email' phone' password' nickname' app fs :
  let app' := (register_submit email' phone' password' nickname' app fs).1.1 in
  (NoDup (userId <$> users (storage app)) →
   NoDup (userId <$> users (storage app'))) ∧
  (NoDup (email <$> users (storage app)) →
   NoDup (email <$> users (storage app'))) ∧
  admin_count (users (storage app')) = admin_count (users (storage app)) ∧
  products (storage app') = products (storage app) ∧
  (no_dangling_favorites (storage app) = true →
   no_dangling_favorites (storage app') = true).
Proof.
  intros app'. subst app'.
  destruct (register_submit_cases email' phone' password' nickname' app fs)
    as [->|(Hem & Hpw & Hfree & ->)]; [done|].
  cbn [storage users set_users products]. split; [|split; [|split; [|split]]].
  - intros Hnd. rewrite fmap_app. apply NoDup_app. split; [done|]. split.
    + intros x Hx Hnew. apply list_elem_of_singleton in Hnew. subst x.
      by apply ensure_int_id_fresh in Hx.
    + apply NoDup_singleton.
  - intros Hnd. rewrite fmap_app. apply NoDup_app. split; [done|]. split.
    + intros x Hx Hnew. apply list_elem_of_singleton in Hnew. by subst x.
    + apply NoDup_singleton.
  - rewrite admin_count_app.
    change (admin_count [_]) with 0%nat. lia.
  - reflexivity.
  - rewrite !no_dangling_favorites_spec. cbn [users products set_users].
    intros Hok u pid Hu Hpid. apply elem_of_app in Hu as [Hu|Hu]; [eauto|].
    apply list_elem_of_singleton in Hu. subst u. by apply elem_of_nil in Hpid.
Qed.

Lemma do_login_found em pw app i u :
  list_find (λ u, email u = em ∧ password u = pw) (users (storage app)) = Some (i, u) →
  do_login em pw app =
    (mkApp (storage app) (Some i), [showinfo "成功" ("欢迎, " +:+ nickname u)]).
Proof. intros Hfind. unfold do_login. by rewrite Hfind. Qed.

(** X4: login never changes the storage; it succeeds exactly when some
    stored user has both the entered email and the entered password, and
    then the logged-in user is the first such user; otherwise the
    application state is left as it was. *)
Theorem do_login_spec em pw app :
  let app' := (do_login em pw app).1 in
  storage app' = storage app ∧
  ((∃ u, u ∈ users (storage app) ∧ email u = em ∧ password u = pw) →
     ∃ i u, current_user app' = Some i ∧ users (storage app) !! i = Some u ∧
            email u = em ∧ password u = pw ∧
            ∀ j v, (j < i)%nat → users (storage app) !! j = Some v →
                   ¬ (email v = em ∧ password v = pw)) ∧
  ((∀ u, u ∈ users (storage app) → ¬ (email u = em ∧ password u = pw)) →
     app' = app).
Proof.
  intros app'. subst app'. unfold do_login.
  destruct (list_find _ _) as [[i u]|] eqn:Hfind; cbn [fst storage current_user].
  - apply list_find_Some in Hfind as (Hi & Hu & Hfirst).
    split; [done|]. split.
    + intros _. exists i, u. destruct Hu as [??]. repeat split; try done.
      intros j v Hj Hv. by apply (Hfirst j v).
    + intros Hnone. destruct (Hnone u); [|done].
      apply list_elem_of_lookup. eauto.
  - apply list_find_None in Hfind. split; [done|]. split; [|done].
    intros (u & Hu & Hmatch). rewrite Forall_forall in Hfind.
    destruct (Hfind u Hu). done.
Qed.

(** X5: after a successful registration, logging in with the registered
    email and password, from any login state, selects the user just
    registered. *)
Theorem login_after_register email' phone' password' nickname' app fs cu :
  email' ≠ "" → password' ≠ "" → email' ∉ email <$> users (storage app) →
  let app' := (register_submit email' phone' password' nickname' app fs).1.1 in
  let app'' := (do_login email' password' (mkApp (storage app') cu)).1 in
  current_user app'' = Some (length (users (storage app))) ∧
  current_user_obj app'' = current_user_obj app' ∧
  storage app'' = storage app'.
Proof.
  intros Hem Hpw Hfree app' app''. subst app'' app'.
  rewrite register_submit_accepted by done. cbn zeta. cbn [fst storage].
  set (user := mkUser _ email' phone' password' nickname' "" false []).
  assert (list_find (λ u, email u = email' ∧ password u = password')
            (users (storage app) ++ [user])
          = Some (length (users (storage app)), user)) as Hfind.
  { apply list_find_Some. split; [|split; [done|]].
    - rewrite lookup_app_r by done. by rewrite Nat.sub_diag.
    - intros j v Hj Hv [Hemail _]. rewrite lookup_app_l in Hj by lia.
      apply Hfree. apply list_elem_of_fmap. exists v. split; [done|].
      apply list_elem_of_lookup. eauto. }
  erewrite do_login_found by exact Hfind.
  cbn [fst current_user storage]. unfold current_user_obj.
  cbn [current_user storage]. done.
Qed.

End AppFacts.

(** ** Favorites *)

Lemma remove_first_snoc (x : Z) (l : list Z) :
  x ∉ l → remove_first x (l ++ [x]) = l.
Proof.
  induction l as [|y l IH]; intros Hnin; cbn.
  - by rewrite decide_True.
  - apply not_elem_of_cons in Hnin as [Hne Hnin].
    rewrite decide_False by done. by rewrite IH.
Qed.

Lemma remove_first_perm (x : Z) (l : list Z) :
  x ∈ l → remove_first x l ++ [x] ≡ₚ l.
Proof.
  intros Hin. destruct (remove_first_split x l Hin) as (l1 & l2 & -> & _ & ->).
  rewrite <-Permutation_cons_append. apply Permutation_middle.
Qed.

Lemma remove_first_sublist (x : Z) (l : list Z) : remove_first x l `sublist_of` l.
Proof.
  induction l as [|y l IH]; [done|]. cbn.
  destruct (decide (y = x)); [by apply sublist_cons|by apply sublist_skip].
Qed.

Lemma remove_first_elem_ne (x y : Z) (l : list Z) :
  y ≠ x → y ∈ remove_first x l ↔ y ∈ l.
Proof.
  intros Hne. split; [apply remove_first_subseteq|].
  induction l as [|z l IH]; [done|]. cbn.
  intros [->|Hin]%elem_of_cons.
  - rewrite decide_False by done. by left.
  - destruct (decide (z = x)); [done|]. right. by apply IH.
Qed.

Lemma toggled_ok (pid : Z) (u : User) :
  ∃ shown,
    toggled pid u = Ok (set_favorites (toggled_favorites pid (favorites u)) u, shown).
Proof.
  unfold toggled, toggled_favorites. case_bool_decide as Hin.
  - rewrite py_list_remove_elem by done. eauto.
  - eauto.
Qed.

Lemma toggled_favorites_flip (pid : Z) (favs : list Z) :
  NoDup favs →
  (pid ∈ toggled_favorites pid favs ↔ pid ∉ favs) ∧
  (∀ x, x ≠ pid → x ∈ toggled_favorites pid favs ↔ x ∈ favs) ∧
  NoDup (toggled_favorites pid favs).
Proof.
  intros Hnd. unfold toggled_favorites. case_bool_decide as Hin.
  - split; [|split].
    + split; [intros Hin'; by apply remove_first_NoDup in Hin'|done].
    + intros x Hx. by apply remove_first_elem_ne.
    + eapply sublist_NoDup; [done|apply remove_first_sublist].
  - split; [|split].
    + split; [done|]. intros _. apply elem_of_app. right. by left.
    + intros x Hx. rewrite elem_of_app, list_elem_of_singleton. tauto.
    + apply NoDup_app. split; [done|]. split; [|apply NoDup_singleton].
      intros x Hx Hx'. apply list_elem_of_singleton in Hx'. by subst x.
Qed.

Section FavoriteFacts.
Context {Doc : Type} `{!JsonCodec Doc}.
Implicit Types (fs : gmap string Doc) (app : App).

Lemma toggle_favorite_run product app fs cu u :
  current_user app = Some cu → users (storage app) !! cu = Some u →
  ∃ shown,
    toggle_favorite product app fs =
      let u' := set_favorites (toggled_favorites (productId product) (favorites u)) u in
      let storage' := set_users (<[cu := u']> (users (storage app))) (storage app) in
      Ok (mkApp storage' (Some cu), save_users storage' fs, shown).
Proof.
  intros Hcu Hu. unfold toggle_favorite, current_user_obj. rewrite Hcu, Hu.
  destruct (toggled_ok (productId product) u) as [shown ->].
  cbn [Exc_bind fst snd]. eauto.
Qed.

(** X6: for a logged-in user whose favorites hold no id twice, toggling a
    product makes it a favorite exactly when it was not one, leaves every
    other id as it was, keeps the list free of repetitions, changes no other
    user and nothing else of this user, and saves the users document. *)
Theorem toggle_favorite_flips product app fs cu u :
  current_user app = Some cu → users (storage app) !! cu = Some u →
  NoDup (favorites u) →
  ∃ u' app' fs' shown,
    toggle_favorite product app fs = Ok (app', fs', shown) ∧
    users (storage app') = <[cu := u']> (users (storage app)) ∧
    current_user_obj app' = Some u' ∧
    u' = set_favorites (favorites u') u ∧
    (productId product ∈ favorites u' ↔ productId product ∉ favorites u) ∧
    (∀ x, x ≠ productId product → x ∈ favorites u' ↔ x ∈ favorites u) ∧
    NoDup (favorites u') ∧
    products (storage app') = products (storage app) ∧
    load_users (users_file (storage app')) fs' = Ok (users (storage app')).
Proof.
  intros Hcu Hu Hnd.
  destruct (toggle_favorite_run product app fs cu u Hcu Hu) as [shown Hrun].
  cbn zeta in Hrun. eexists _, _, _, _. split; [exact Hrun|].
  cbn [storage users set_users products]. split; [reflexivity|].
  split.
  { unfold current_user_obj. cbn [current_user storage users set_users].
    apply list_lookup_insert_eq. by eapply lookup_lt_Some. }
  split; [done|]. cbn [favorites set_favorites].
  destruct (toggled_favorites_flip (productId product) (favorites u) Hnd)
    as (Hflip & Hothers & Hnd').
  split; [done|]. split; [done|]. split; [done|]. split; [done|].
  unfold save_users. cbn [users_file users set_users].
  apply load_collection_saved, User_kwargs_asdict.
Qed.

(** X7: for a logged-in user whose favorites hold no id twice, toggling the
    same product twice gives back the same favorites up to order; when the
    product was not a favorite before, the whole application state is
    exactly as it was. *)
Theorem toggle_favorite_twice product app fs cu u :
  current_user app = Some cu → users (storage app) !! cu = Some u →
  NoDup (favorites u) →
  ∃ app1 fs1 shown1 app2 fs2 shown2 u2,
    toggle_favorite product app fs = Ok (app1, fs1, shown1) ∧
    toggle_favorite product app1 fs1 = Ok (app2, fs2, shown2) ∧
    current_user_obj app2 = Some u2 ∧
    favorites u2 ≡ₚ favorites u ∧
    u2 = set_favorites (favorites u2) u ∧
    (productId product ∉ favorites u → app2 = app).
Proof.
  intros Hcu Hu Hnd.
  destruct (toggle_favorite_run product app fs cu u Hcu Hu) as [shown1 Hrun1].
  cbn zeta in Hrun1.
  set (pid := productId product) in *.
  set (u1 := set_favorites (toggled_favorites pid (favorites u)) u) in *.
  set (app1 := mkApp (set_users (<[cu := u1]> (users (storage app))) (storage app))
                     (Some cu)) in *.
  assert (users (storage app1) !! cu = Some u1) as Hu1.
  { cbn [app1 storage users set_users].
    apply list_lookup_insert_eq. by eapply lookup_lt_Some. }
  destruct (toggle_favorite_run product app1 (save_users (storage app1) fs) cu u1
              eq_refl Hu1) as [shown2 Hrun2].
  cbn zeta in Hrun2. fold pid in Hrun2.
  eexists app1, _, shown1, _, _, shown2, _.
  split; [exact Hrun1|]. split; [exact Hrun2|].
  split.
  { unfold current_user_obj. cbn [current_user storage users set_users].
    apply list_lookup_insert_eq. by eapply lookup_lt_Some. }
  cbn [favorites set_favorites u1].
  assert (toggled_favorites pid (toggled_favorites pid (favorites u))
          ≡ₚ favorites u
          ∧ (pid ∉ favorites u →
             toggled_favorites pid (toggled_favorites pid (favorites u))
             = favorites u)) as [Hperm Hsame].
  { destruct (decide (pid ∈ favorites u)) as [Hin|Hin].
    - split; [|done]. unfold toggled_favorites.
      rewrite (bool_decide_eq_true_2 (pid ∈ favorites u)) by done.
      rewrite bool_decide_eq_false_2 by by apply remove_first_NoDup.
      by apply remove_first_perm.
    - assert (toggled_favorites pid (toggled_favorites pid (favorites u))
              = favorites u) as Heq; [|by rewrite Heq].
      unfold toggled_favorites.
      rewrite (bool_decide_eq_false_2 (pid ∈ favorites u)) by done.
      rewrite bool_decide_eq_true_2 by (apply elem_of_app; right; by left).
      by apply remove_first_snoc. }
  split; [done|]. split; [reflexivity|].
  intros Hnin. rewrite (Hsame Hnin). subst app1 u1.
  cbn [storage users set_users].
  rewrite list_insert_insert_eq.
  replace (set_favorites (favorites u) (set_favorites _ u)) with u
    by (clear; by destruct u).
  rewrite list_insert_id by done.
  clear -Hcu. destruct app as [[uf pf us ps] cu']. cbn in Hcu. subst cu'.
  reflexivity.
Qed.

(** X8: toggling a product that is in the products collection, for a
    logged-in user, keeps every favorite of every user pointing at an
    existing product. *)
Theorem toggle_favorite_keeps_integrity product app fs cu u app' fs' shown :
  current_user app = Some cu → users (storage app) !! cu = Some u →
  product ∈ products (storage app) →
  no_dangling_favorites (storage app) = true →
  toggle_favorite product app fs = Ok (app', fs', shown) →
  no_dangling_favorites (storage app') = true.
Proof.
  intros Hcu Hu Hproduct Hok Hrun.
  destruct (toggle_favorite_run product app fs cu u Hcu Hu) as [shown' Hrun'].
  rewrite Hrun' in Hrun. cbn zeta in Hrun. injection Hrun as <- _ _.
  apply no_dangling_favorites_spec. cbn [storage users products set_users].
  rewrite no_dangling_favorites_spec in Hok.
  intros v pid Hv Hpid.
  apply list_elem_of_lookup in Hv as [i Hv].
  destruct (decide (i = cu)) as [->|Hne].
  - rewrite list_lookup_insert_eq in Hv by by eapply lookup_lt_Some.
    injection Hv as <-. cbn [favorites set_favorites] in Hpid.
    unfold toggled_favorites in Hpid. case_bool_decide.
    + apply remove_first_subseteq in Hpid. apply (Hok u pid); [|done].
      apply list_elem_of_lookup. eauto.
    + apply elem_of_app in Hpid as [Hpid|Hpid].
      * apply (Hok u pid); [|done]. apply list_elem_of_lookup. eauto.
      * apply list_elem_of_singleton in Hpid. subst pid. eauto.
  - rewrite list_lookup_insert_ne in Hv by done.
    apply (Hok v pid); [|done]. apply list_elem_of_lookup. eauto.
Qed.

End FavoriteFacts.

(** ** What the callbacks keep *)

Lemma admin_count_same_flags (us vs : list User) :
  is_admin <$> us = is_admin <$> vs → admin_count us = admin_count vs.
Proof.
  revert vs. induction us as [|u us IH]; intros [|v vs] Heq; try done.
  injection Heq as Hflag Heq. specialize (IH vs Heq).
  change (u :: us) with ([u] ++ us). change (v :: vs) with ([v] ++ vs).
  rewrite !admin_count_app, IH. f_equal.
  unfold admin_count. rewrite !filter_cons, !filter_nil, Hflag.
  by destruct (decide (is_admin v = true)).
Qed.

Lemma admin_count_insert (us : list User) (i : nat) (u u' : User) :
  us !! i = Some u → is_admin u' = is_admin u →
  admin_count (<[i := u']> us) = admin_count us.
Proof.
  intros Hu Hflag. apply admin_count_same_flags.
  rewrite list_fmap_insert, Hflag. apply list_insert_id.
  by rewrite list_lookup_fmap, Hu.
Qed.

Lemma admin_count_delete (us : list User) (i : nat) (u : User) :
  us !! i = Some u → is_admin u = false →
  admin_count (delete i us) = admin_count us.
Proof.
  intros Hu Hflag. rewrite delete_take_drop.
  rewrite <-(take_drop_middle us i u Hu) at 3.
  change (u :: drop (S i) us) with ([u] ++ drop (S i) us).
  rewrite !admin_count_app.
  assert (admin_count [u] = 0%nat) as ->; [|lia].
  unfold admin_count. rewrite filter_cons, filter_nil, Hflag.
  by rewrite decide_False by discriminate.
Qed.

Lemma admin_count_unfavorited (pid : Z) (us : list User) :
  admin_count (unfavorited pid <$> us) = admin_count us.
Proof.
  apply admin_count_same_flags. rewrite <-list_fmap_compose.
  by apply list_fmap_ext.
Qed.

Lemma elem_of_delete_other {A} (l : list A) (i : nat) (x y : A) :
  l !! i = Some x → y ∈ l → y ≠ x → y ∈ delete i l.
Proof.
  intros Hx Hy Hne. rewrite delete_take_drop.
  rewrite <-(take_drop_middle l i x Hx) in Hy.
  apply elem_of_app in Hy as [Hy|Hy]; apply elem_of_app; [by left|].
  apply elem_of_cons in Hy as [->|Hy]; [done|by right].
Qed.

Lemma filter_all {A} (P : A → Prop) `{!∀ x, Decision (P x)} (l : list A) :
  (∀ x, x ∈ l → P x) → filter P l = l.
Proof.
  induction l as [|x l IH]; intros HP; [done|].
  rewrite filter_cons_True by (apply HP; by left).
  f_equal. apply IH. intros y Hy. apply HP. by right.
Qed.

Lemma filter_other_keys {A} (f : A → Z) (l : list A) (i : nat) (x : A) :
  NoDup (f <$> l) → l !! i = Some x →
  filter (λ y, f y ≠ f x) l = delete i l.
Proof.
  revert i. induction l as [|y l IH]; intros i Hnd Hx; [done|].
  rewrite fmap_cons in Hnd. apply NoDup_cons in Hnd as [Hy Hnd].
  destruct i as [|i]; cbn in Hx.
  - injection Hx as ->. rewrite filter_cons_False by (intros H; by apply H).
    cbn. apply filter_all. intros z Hz Heq.
    apply Hy. rewrite <-Heq. apply list_elem_of_fmap. eauto.
  - rewrite filter_cons_True.
    + cbn. f_equal. by apply IH.
    + intros Heq. apply Hy. rewrite Heq. apply list_elem_of_fmap.
      exists x. split; [done|]. apply list_elem_of_lookup. eauto.
Qed.

Section KeptFacts.
Context {Doc : Type} `{!JsonCodec Doc}.
Implicit Types (fs : gmap string Doc) (app : App) (storage : Storage).

Lemma del_user_cases sel askyesno storage fs storage' fs' :
  del_user sel askyesno storage fs = Ok (storage', fs') →
  storage' = storage ∨
  ∃ idx target,
    head sel = Some idx ∧ users storage !! idx = Some target ∧
    is_admin target = false ∧
    storage' = mkStorage (users_file storage) (products_file storage)
                 (delete idx (users storage))
                 (filter (λ p, sellerId p ≠ userId target) (products storage)).
Proof.
  unfold del_user. destruct sel as [|idx sel]; [intros [= <- _]; by left|].
  destruct (users storage !! idx) as [target|] eqn:Hidx; [|discriminate].
  destruct (is_admin target) eqn:Hadm; [intros [= <- _]; by left|].
  destruct askyesno; [|intros [= <- _]; by left].
  intros [= <- _]. right. by exists idx, target.
Qed.

Lemma _confirm_delete_cases cu askyesno product storage fs storage' fs' :
  _confirm_delete cu askyesno product storage fs = Ok (storage', fs') →
  storage' = storage ∨
  storage' = mkStorage (users_file storage) (products_file storage)
               (unfavorited (productId product) <$> users storage)
               (filter (λ p, productId p ≠ productId product) (products storage)).
Proof.
  unfold _confirm_delete.
  destruct (_ensure_login cu); cbn [negb]; [|intros [= <- _]; by left].
  destruct askyesno; [|intros [= <- _]; by left].
  cbn [set_products users]. rewrite cleanup_favorites_ok. cbn [Exc_bind].
  intros [= <- _]. by right.
Qed.

Lemma del_product_admin_cases sel askyesno storage fs storage' fs' :
  del_product_admin sel askyesno storage fs = Ok (storage', fs') →
  storage' = storage ∨
  ∃ idx target,
    head sel = Some idx ∧ products storage !! idx = Some target ∧
    storage' = mkStorage (users_file storage) (products_file storage)
                 (unfavorited (productId target) <$> users storage)
                 (filter (λ p, productId p ≠ productId target) (products storage)).
Proof.
  unfold del_product_admin. destruct sel as [|idx sel]; [intros [= <- _]; by left|].
  destruct (products storage !! idx) as [target|] eqn:Hidx; [|discriminate].
  destruct askyesno; [|intros [= <- _]; by left].
  cbn [set_products users]. rewrite cleanup_favorites_ok. cbn [Exc_bind].
  intros [= <- _]. right. by exists idx, target.
Qed.

(** X9: no callback that rewrites the users collection grants or removes
    the admin flag: after a profile save, a favorite toggle, an admin
    user-delete or either product delete, whatever was entered or selected,
    the number of admin-flagged users is what it was. *)
Theorem admin_flags_kept :
  (∀ email' phone' nickname' app fs,
     admin_count (users (storage (profile_save email' phone' nickname' app fs).1.1))
     = admin_count (users (storage app))) ∧
  (∀ product app fs app' fs' shown,
     toggle_favorite product app fs = Ok (app', fs', shown) →
     admin_count (users (storage app')) = admin_count (users (storage app))) ∧
  (∀ sel askyesno storage fs storage' fs',
     del_user sel askyesno storage fs = Ok (storage', fs') →
     admin_count (users storage') = admin_count (users storage)) ∧
  (∀ cu askyesno product storage fs storage' fs',
     _confirm_delete cu askyesno product storage fs = Ok (storage', fs') →
     admin_count (users storage') = admin_count (users storage)) ∧
  (∀ sel askyesno storage fs storage' fs',
     del_product_admin sel askyesno storage fs = Ok (storage', fs') →
     admin_count (users storage') = admin_count (users storage)).
Proof.
  split; [|split; [|split; [|split]]].
  - intros email' phone' nickname' app fs.
    unfold profile_save, current_user_obj.
    destruct (current_user app) as [cu|]; [|done].
    destruct (users (storage app) !! cu) as [u|] eqn:Hu; [|done].
    cbn [fst storage users set_users]. by eapply admin_count_insert.
  - intros product app fs app' fs' shown.
    unfold toggle_favorite, current_user_obj.
    destruct (current_user app) as [cu|]; [|by intros [= <- _ _]].
    destruct (users (storage app) !! cu) as [u|] eqn:Hu; [|by intros [= <- _ _]].
    destruct (toggled_ok (productId product) u) as [shown' ->].
    cbn [Exc_bind fst snd]. intros [= <- _ _].
    cbn [storage users set_users]. by eapply admin_count_insert.
  - intros sel askyesno storage fs storage' fs' Hrun.
    destruct (del_user_cases _ _ _ _ _ _ Hrun)
      as [->|(idx & target & _ & Hidx & Hadm & ->)]; [done|].
    cbn [users]. by eapply admin_count_delete.
  - intros cu askyesno product storage fs storage' fs' Hrun.
    destruct (_confirm_delete_cases _ _ _ _ _ _ _ Hrun) as [->| ->]; [done|].
    cbn [users]. apply admin_count_unfavorited.
  - intros sel askyesno storage fs storage' fs' Hrun.
    destruct (del_product_admin_cases _ _ _ _ _ _ Hrun)
      as [->|(idx & target & _ & _ & ->)]; [done|].
    cbn [users]. apply admin_count_unfavorited.
Qed.

(** X10: when user ids are unique, the admin user-delete leaves exactly what
    the integration test's stand-in leaves, which drops users and products by
    the deleted user's id. *)
Theorem del_user_agrees_with_test idx sel target storage fs :
  NoDup (userId <$> users storage) →
  users storage !! idx = Some target → is_admin target = false →
  ∃ fs',
    del_user (idx :: sel) true storage fs
    = Ok (delete_user_by_id (userId target) storage, fs').
Proof.
  intros Hnd Hidx Hadm. rewrite (del_user_run _ _ _ _ _ Hidx Hadm). cbn zeta.
  unfold delete_user_by_id. rewrite (filter_other_keys userId _ idx target) by done.
  eauto.
Qed.

(** X11: the admin user-delete never leaves a product without its seller:
    if every product's seller is a stored user before, so it is after. *)
Theorem del_user_keeps_sellers sel askyesno storage fs storage' fs' :
  sellers_exist storage →
  del_user sel askyesno storage fs = Ok (storage', fs') →
  sellers_exist storage'.
Proof.
  intros Hok Hrun.
  destruct (del_user_cases _ _ _ _ _ _ Hrun)
    as [->|(idx & target & _ & Hidx & _ & ->)]; [done|].
  intros p Hp. cbn [products users] in *.
  apply list_elem_of_filter in Hp as [Hne Hp].
  destruct (Hok p Hp) as (u & Hu & Hseller). exists u. split; [|done].
  eapply elem_of_delete_other; [done..|]. intros ->. by apply Hne.
Qed.

(** X12: both product-delete paths keep the favorites sound: if every
    favorite names an existing product and no favorites list holds an id
    twice, the same is true after the delete. *)
Theorem product_delete_keeps_favorites storage fs :
  no_dangling_favorites storage = true →
  (∀ u, u ∈ users storage → NoDup (favorites u)) →
  (∀ cu askyesno product storage' fs',
     _confirm_delete cu askyesno product storage fs = Ok (storage', fs') →
     no_dangling_favorites storage' = true ∧
     ∀ u, u ∈ users storage' → NoDup (favorites u)) ∧
  (∀ sel askyesno storage' fs',
     del_product_admin sel askyesno storage fs = Ok (storage', fs') →
     no_dangling_favorites storage' = true ∧
     ∀ u, u ∈ users storage' → NoDup (favorites u)).
Proof.
  intros Hok Hnd.
  assert (∀ pid u, u ∈ unfavorited pid <$> users storage → NoDup (favorites u))
    as Hnd'.
  { intros pid u' (u & -> & Hu)%list_elem_of_fmap.
    eapply sublist_NoDup; [by apply Hnd|apply remove_first_sublist]. }
  split.
  - intros cu askyesno product storage' fs' Hrun.
    destruct (_confirm_delete_cases _ _ _ _ _ _ _ Hrun) as [->| ->]; [done|].
    split; [by apply product_delete_keeps_integrity|apply Hnd'].
  - intros sel askyesno storage' fs' Hrun.
    destruct (del_product_admin_cases _ _ _ _ _ _ Hrun)
      as [->|(idx & target & _ & _ & ->)]; [done|].
    split; [by apply product_delete_keeps_integrity|apply Hnd'].
Qed.

(** X13: an id is handed out again once its holder is gone: after a user
    registers and the administrator deletes that user, the users collection
    is what it was and the next allocated id is the deleted user's id. *)
Theorem deleted_id_is_reused email' phone' password' nickname' app fs :
  email' ≠ "" → password' ≠ "" → email' ∉ email <$> users (storage app) →
  ∃ user app1 fs1 shown storage2 fs2,
    register_submit email' phone' password' nickname' app fs = (app1, fs1, shown) ∧
    current_user_obj app1 = Some user ∧
    del_user [length (users (storage app))] true (storage app1) fs1
      = Ok (storage2, fs2) ∧
    users storage2 = users (storage app) ∧
    ensure_int_id (userId <$> users storage2) = userId user.
Proof.
  intros Hem Hpw Hfree.
  rewrite register_submit_accepted by done. cbn zeta.
  set (user := mkUser _ email' phone' password' nickname' "" false []).
  assert ((users (storage app) ++ [user]) !! length (users (storage app))
          = Some user) as Hlast.
  { rewrite lookup_app_r by done. by rewrite Nat.sub_diag. }
  eexists user, _, _, _, _, _. split; [reflexivity|].
  split; [exact Hlast|].
  split; [by apply del_user_run|].
  cbn [users storage set_users]. rewrite delete_take_drop.
  rewrite take_app_length, drop_ge by (rewrite length_app; cbn; lia).
  by rewrite app_nil_r.
Qed.

End KeptFacts.

(** ** Loading documents *)

Section LoadFacts.
Context {Doc : Type} `{!JsonCodec Doc}.
Implicit Types (fs : gmap string Doc) (self : Storage).

Lemma load_collection_local {A} (kwargs : json → Exc A) (path : string) fs fs' :
  fs !! path = fs' !! path →
  load_collection kwargs path fs = load_collection kwargs path fs'.
Proof. intros Heq. unfold load_collection. by rewrite Heq. Qed.

(** X16: a storage that holds an administrator and keeps its collections
    in two different documents is recovered exactly by saving both
    collections and initializing again from the same paths; nothing is
    synthesized and nothing more is written. *)
Theorem reopen_after_save self fs :
  users_file self ≠ products_file self → any_admin (users self) = true →
  let fs' := save_users self (save_products self fs) in
  Storage_init (users_file self) (products_file self) fs' = Ok (self, fs').
Proof.
  intros Hpaths Hadmin fs'. subst fs'.
  rewrite (Storage_init_has_admin _ _ _ (users self) (products self)).
  - by destruct self.
  - apply load_collection_saved, User_kwargs_asdict.
  - unfold load_products, save_users.
    rewrite (load_collection_local _ _ _ (save_products self fs))
      by by rewrite lookup_insert_ne.
    apply load_collection_saved, Product_kwargs_asdict.
  - done.
Qed.

(** X17: initialization is idempotent when the two documents have
    different paths: initializing again from the files the first
    initialization left gives the same storage and leaves the files as they
    are, so a second administrator is never synthesized. *)
Theorem Storage_init_idempotent uf pf fs self fs' :
  uf ≠ pf →
  Storage_init uf pf fs = Ok (self, fs') →
  Storage_init uf pf fs' = Ok (self, fs').
Proof.
  intros Hpaths Hinit.
  destruct (Storage_init_returns _ _ _ _ _ Hinit) as (us & ps & Hu & Hp).
  destruct (any_admin us) eqn:Hany.
  - rewrite (Storage_init_has_admin _ _ _ _ _ Hu Hp Hany) in Hinit.
    injection Hinit as <- <-. by apply Storage_init_has_admin.
  - rewrite (Storage_init_no_admin _ _ _ _ _ Hu Hp Hany) in Hinit.
    cbn zeta in Hinit. injection Hinit as <- <-.
    apply Storage_init_has_admin.
    + apply load_collection_saved, User_kwargs_asdict.
    + unfold load_products, save_users. cbn [users_file].
      rewrite (load_collection_local _ _ _ fs) by by rewrite lookup_insert_ne.
      exact Hp.
    + unfold any_admin. rewrite existsb_app. cbn. apply orb_true_r.
Qed.

End LoadFacts.

(** ** Publishing, editing and commenting *)

Section ProductFacts.
Context {Doc : Type} `{!JsonCodec Doc}.
Variable py_float : string → Exc float.
Implicit Types (fs : gmap string Doc) (storage : Storage).

(** X18: publishing under a non-empty name appends one product with the
    entered fields, the logged-in user as seller, no comments and an id above
    every stored product id; the price is what [float] reads from the entry
    and 0.0 when [float] raises; product ids stay unique, favorites stay
    valid, a seller who is a stored user keeps every seller resolvable, and
    the products document is written and loads back. *)
Theorem publish_submit_new seller name' category' description' price_text
    images' storage fs :
  name' ≠ "" →
  ∃ p storage' fs' shown,
    publish_submit py_float seller name' category' description' price_text
      images' storage fs = (storage', fs', shown) ∧
    products storage' = products storage ++ [p] ∧
    users storage' = users storage ∧
    p = mkProduct (ensure_int_id (productId <$> products storage)) name'
          category' description' (price p) images' (userId seller) [] ∧
    (∀ q, q ∈ products storage → productId q < productId p) ∧
    (∀ x, py_float price_text = Ok x → price p = x) ∧
    (∀ e, py_float price_text = Raise e → price p = S754_zero false) ∧
    (NoDup (productId <$> products storage) →
     NoDup (productId <$> products storage')) ∧
    (no_dangling_favorites storage = true →
     no_dangling_favorites storage' = true) ∧
    (seller ∈ users storage → sellers_exist storage → sellers_exist storage') ∧
    load_products (products_file storage') fs' = Ok (products storage').
Proof.
  intros Hname. unfold publish_submit.
  rewrite bool_decide_eq_false_2 by done. cbn zeta.
  eexists _, _, _, _. split; [reflexivity|].
  cbn [products users set_products]. split; [reflexivity|].
  split; [reflexivity|]. split; [reflexivity|]. cbn [productId price].
  split.
  { intros q Hq. apply ensure_int_id_above, list_elem_of_fmap. eauto. }
  split; [by unfold safe_float; intros x ->|].
  split; [by unfold safe_float; intros e ->|].
  split.
  { intros Hnd. rewrite fmap_app. apply NoDup_app. split; [done|].
    split; [|apply NoDup_singleton].
    intros x Hx Hnew. apply list_elem_of_singleton in Hnew. subst x.
    by apply ensure_int_id_fresh in Hx. }
  split.
  { rewrite !no_dangling_favorites_spec. cbn [users products].
    intros Hok u pid Hu Hpid. destruct (Hok u pid Hu Hpid) as (q & Hq & Heq).
    exists q. split; [|done]. apply elem_of_app. by left. }
  split.
  { intros Hseller Hok q Hq. cbn [users products] in *.
    apply elem_of_app in Hq as [Hq|Hq]; [by apply Hok|].
    apply list_elem_of_singleton in Hq. subst q. eauto. }
  unfold save_products. cbn [products_file products].
  apply load_collection_saved, Product_kwargs_asdict.
Qed.

(** X19: posting a non-empty comment on the product shown appends to that
    product's comments one entry holding the author's id, the author's
    nickname at that moment and the text; every other product, every
    product's id and seller and all users are untouched; and a later profile
    save, whatever nickname it sets, changes no product, so the comment keeps
    the nickname it was posted under. *)
Theorem post_comment_appends author shown txtc st fs product :
  txtc ≠ "" → products st !! shown = Some product →
  ∃ st' fs' dialogs,
    post_comment author shown txtc st fs = (st', fs', dialogs) ∧
    products st' !! shown
      = Some (add_comment (comment (userId author) (nickname author) txtc) product) ∧
    comments (add_comment (comment (userId author) (nickname author) txtc) product)
      = comments product
        ++ [[("userId", JInt (userId author));
             ("nickname", JStr (nickname author)); ("text", JStr txtc)]] ∧
    (∀ j, j ≠ shown → products st' !! j = products st !! j) ∧
    productId <$> products st' = productId <$> products st ∧
    sellerId <$> products st' = sellerId <$> products st ∧
    users st' = users st ∧
    (∀ email' phone' nickname' cu fs2,
       products (storage (profile_save email' phone' nickname'
                            (mkApp st' cu) fs2).1.1)
       = products st') ∧
    load_products (products_file st') fs' = Ok (products st').
Proof.
  intros Htxt Hshown. unfold post_comment.
  rewrite bool_decide_eq_false_2 by done. cbn zeta.
  eexists _, _, _. split; [reflexivity|]. cbn [products users set_products].
  split; [by rewrite list_lookup_alter_eq, Hshown|].
  split; [reflexivity|].
  split; [intros j Hj; by apply list_lookup_alter_ne|].
  split.
  { rewrite (list_fmap_alter productId _ id) by by apply Forall_true.
    apply list_alter_id. done. }
  split.
  { rewrite (list_fmap_alter sellerId _ id) by by apply Forall_true.
    apply list_alter_id. done. }
  split; [reflexivity|].
  split.
  { intros email' phone' nickname' cu fs2. unfold profile_save, current_user_obj.
    cbn [current_user storage]. destruct cu as [cu|]; [|done].
    by destruct (_ !! cu). }
  unfold save_products. cbn [products_file products].
  apply load_collection_saved, Product_kwargs_asdict.
Qed.

(** X20: an edit is applied only for the seller of the product shown: with
    no login or with another user logged in nothing changes; for the seller,
    the product at that position gets the entered name, category,
    description and images and the price [float] reads (its old price when
    [float] raises); and in every case each product keeps its id, seller
    and comments and the users are untouched. *)
Theorem edit_save_owner_only current_user shown name' category' description'
    price_text images' storage fs :
  let storage' :=
    (edit_save py_float current_user shown name' category' description'
       price_text images' storage fs).1.1 in
  productId <$> products storage' = productId <$> products storage ∧
  sellerId <$> products storage' = sellerId <$> products storage ∧
  comments <$> products storage' = comments <$> products storage ∧
  users storage' = users storage ∧
  (current_user = None → storage' = storage) ∧
  (∀ u product,
     current_user = Some u → products storage !! shown = Some product →
     sellerId product ≠ userId u → storage' = storage) ∧
  (∀ u product,
     current_user = Some u → products storage !! shown = Some product →
     sellerId product = userId u →
     products storage'
     = <[shown := edit product name' category' description'
                    (safe_float py_float price_text (price product)) images']>
         (products storage)).
Proof.
  intros storage'. subst storage'. unfold edit_save.
  destruct current_user as [u|]; [|by repeat split].
  destruct (products storage !! shown) as [product|] eqn:Hshown;
    [|by repeat split].
  case_bool_decide as Howner; cbn [fst products users set_products].
  - assert (∀ {B} (f : Product → B) product',
              f product' = f product →
              f <$> <[shown := product']> (products storage)
              = f <$> products storage) as Hsame.
    { intros B f product' Hf. rewrite list_fmap_insert, Hf.
      apply list_insert_id. by rewrite list_lookup_fmap, Hshown. }
    split; [by apply Hsame|]. split; [by apply Hsame|].
    split; [by apply Hsame|]. split; [done|]. split; [done|].
    split.
    + intros u' product' [= <-] [= <-] Hne. done.
    + by intros u' product' [= <-] [= <-] _.
  - do 5 (split; [done|]). split; [done|].
    intros u' product' [= <-] [= <-] Heq. done.
Qed.

End ProductFacts.

(** ** The favorites page *)

(** X21: the favorites page lists exactly the stored products whose id is
    among the user's favorites, so a favorite without product is skipped;
    when product ids are unique, the favorites hold no id twice and every
    favorite names a product, the ids listed are the favorites, each once. *)
Theorem favorites_page_lists (u : User) (storage : Storage) :
  (∀ p, p ∈ favorites_page u storage
        ↔ p ∈ products storage ∧ productId p ∈ favorites u) ∧
  (NoDup (productId <$> products storage) → NoDup (favorites u) →
   (∀ pid, pid ∈ favorites u → ∃ p, p ∈ products storage ∧ productId p = pid) →
   productId <$> favorites_page u storage ≡ₚ favorites u).
Proof.
  unfold favorites_page. split.
  - intros p. rewrite list_elem_of_filter. tauto.
  - intros Hids Hfavs Hvalid. apply NoDup_Permutation; [|done|].
    + eapply sublist_NoDup; [exact Hids|].
      apply fmap_sublist, sublist_filter.
    + intros pid. rewrite list_elem_of_fmap. split.
      * intros (p & -> & Hp). by apply list_elem_of_filter in Hp as [? _].
      * intros Hpid. destruct (Hvalid pid Hpid) as (p & Hp & <-).
        exists p. split; [done|]. by apply list_elem_of_filter.
Qed.

(** ** More on the image importer *)

Lemma str_replace_fixed (old new : ascii) (s : string) :
  new ≠ old → str_replace old new s = s ↔ str_contains old s = false.
Proof.
  intros Hne. split; [|apply str_replace_absent].
  intros Heq. rewrite <-Heq. by apply str_replace_gone.
Qed.

Lemma candidate_start (src_path : string) (k : Z) :
  starts_with sep
    (nth_candidate (os_path_basename src_path)
       (os_path_splitext (os_path_basename src_path)).1
       (os_path_splitext (os_path_basename src_path)).2 k) = false.
Proof.
  unfold nth_candidate. case_decide.
  - destruct (starts_with sep (os_path_basename src_path)) eqn:Hstart; [|done].
    apply starts_with_contains in Hstart. by rewrite basename_no_sep in Hstart.
  - apply numbered_start, splitext_basename_start.
Qed.

Lemma candidate_backslash (src_path : string) (k : Z) :
  str_contains backslash
    (nth_candidate (os_path_basename src_path)
       (os_path_splitext (os_path_basename src_path)).1
       (os_path_splitext (os_path_basename src_path)).2 k)
  = str_contains backslash (os_path_basename src_path).
Proof.
  unfold nth_candidate. case_decide; [done|].
  rewrite <-(splitext_app (os_path_basename src_path)) at 3.
  unfold numbered. rewrite !str_contains_app, pretty_no_backslash.
  by destruct (str_contains backslash _).
Qed.

Section ImporterMore.
Variable copy2 : string → string → filesystem → filesystem * Exc unit.
Implicit Types (w : World) (src_path : string).


(** X23: a returned path always comes from a successful copy to
    [images/<candidate>], a path where nothing existed; it is that
    destination with every backslash replaced, so it names the file just
    written exactly when the source's base name holds no backslash, and
    then, if a successful copy leaves its destination existing, the returned
    path exists. *)
Theorem returned_path_names_the_copy fuel src_path w w' path :
  copy_image_to_storage copy2 fuel src_path w = Some (w', Ok (Some path)) →
  ∃ candidate,
    copy2 src_path ("images/" +:+ candidate) (tree w) = (tree w', Ok ()) ∧
    os_path_exists ("images/" +:+ candidate) (tree w) = false ∧
    path = str_replace backslash sep ("images/" +:+ candidate) ∧
    (path = "images/" +:+ candidate
     ↔ str_contains backslash (os_path_basename src_path) = false) ∧
    (copy2_contract copy2 →
     str_contains backslash (os_path_basename src_path) = false →
     os_path_exists path (tree w') = true).
Proof.
  intros Hrun.
  destruct (copy_image_returned copy2 _ _ _ _ _ Hrun)
    as (c & _ & _ & Hfree & Hcopy & ->).
  destruct (free_candidate_first_free _ _ _ _ _ _ Hfree)
    as (k & _ & -> & Hfreec & _).
  rewrite join_images in Hcopy, Hfreec |- * by apply candidate_start.
  eexists. split; [exact Hcopy|]. split; [exact Hfreec|]. split; [reflexivity|].
  assert (str_contains backslash
            ("images/" +:+
             nth_candidate (os_path_basename src_path)
               (os_path_splitext (os_path_basename src_path)).1
               (os_path_splitext (os_path_basename src_path)).2 k)
          = str_contains backslash (os_path_basename src_path)) as Hback.
  { by rewrite str_contains_app, candidate_backslash. }
  split.
  - rewrite <-Hback. by apply str_replace_fixed.
  - intros Hcontract Hclean.
    rewrite str_replace_absent by by rewrite Hback.
    by eapply Hcontract.
Qed.

End ImporterMore.

(** ** Logging in as the default administrator *)

Section AdminLogin.
Context {Doc : Type} `{!JsonCodec Doc}.
Implicit Types (fs : gmap string Doc).

(** X24: after an initialization that synthesized the administrator,
    logging in with "admin@example.com" and "admin" always succeeds; the
    user logged in is the synthesized administrator unless a loaded user
    already has that email and that password, who is then logged in
    instead. *)
Theorem default_admin_can_log_in uf pf fs us self fs' cu :
  load_users uf fs = Ok us → any_admin us = false →
  Storage_init uf pf fs = Ok (self, fs') →
  ∃ i u,
    current_user (do_login "admin@example.com" "admin" (mkApp self cu)).1 = Some i ∧
    users self !! i = Some u ∧
    email u = "admin@example.com" ∧ password u = "admin" ∧
    ((∀ v, v ∈ us → ¬ (email v = "admin@example.com" ∧ password v = "admin")) →
       i = length us ∧ u = default_admin (ensure_int_id (userId <$> us))) ∧
    ((∃ v, v ∈ us ∧ email v = "admin@example.com" ∧ password v = "admin") →
       (i < length us)%nat ∧ is_admin u = false).
Proof.
  intros Hu Hany Hinit.
  destruct (Storage_init_returns _ _ _ _ _ Hinit) as (us' & ps & Hu' & Hp).
  rewrite (Storage_init_no_admin _ _ _ _ _ Hu Hp Hany) in Hinit.
  cbn zeta in Hinit. injection Hinit as <- _.
  set (admin := default_admin (ensure_int_id (userId <$> us))).
  unfold do_login. cbn [storage users].
  destruct (list_find _ (us ++ [admin])) as [[i u]|] eqn:Hfind.
  - apply list_find_Some in Hfind as (Hi & [Hem Hpw] & Hfirst).
    exists i, u. cbn [fst current_user]. do 4 (split; [done|]).
    assert (i = length us ∨ (i < length us)%nat) as [-> | Hlt].
    { apply lookup_lt_Some in Hi. rewrite length_app in Hi. cbn in Hi. lia. }
    + split.
      * intros _. split; [done|].
        rewrite lookup_app_r, Nat.sub_diag in Hi by done. by injection Hi as <-.
      * intros (v & Hv & Hmatch). apply list_elem_of_lookup in Hv as [j Hj].
        destruct (Hfirst j v); [|by eapply lookup_lt_Some|done].
        rewrite lookup_app_l by by eapply lookup_lt_Some. done.
    + rewrite lookup_app_l in Hi by done. split.
      * intros Hnone. destruct (Hnone u); [|done].
        apply list_elem_of_lookup. eauto.
      * intros _. split; [done|].
        apply any_admin_false_count in Hany.
        destruct (is_admin u) eqn:Hadm; [|done].
        assert (0 < admin_count us)%nat; [|lia].
        apply any_admin_true_count. unfold any_admin.
        apply existsb_exists. exists u. split; [|done].
        apply list_elem_of_In, list_elem_of_lookup. eauto.
  - apply list_find_None in Hfind. rewrite Forall_forall in Hfind.
    destruct (Hfind admin); [|done]. apply elem_of_app. right. by left.
Qed.

End AdminLogin.

(** ** Concrete runs of the further properties *)

Ltac decided := apply (bool_decide_unpack _); vm_compute; exact I.

Lemma cascade_sellers : sellers_exist cascade_storage.
Proof.
  intros p Hp. cbn in Hp.
  apply elem_of_cons in Hp as [->|Hp].
  - exists user_A. split; [|done]. right. by left.
  - apply list_elem_of_singleton in Hp as ->. exists user_B.
    split; [|done]. do 2 right. by left.
Qed.

(** Registering "new@x" on the sample state. *)
Lemma register_submit_new_witness :
  "new@x" ≠ "" ∧ "pw" ≠ "" ∧ ("new@x" ∉ email <$> users (storage guest_app)) ∧
  ∃ user app' fs' shown,
    register_submit "new@x" "" "pw" "N" guest_app no_files = (app', fs', shown) ∧
    user = mkUser (ensure_int_id (userId <$> users (storage guest_app)))
                  "new@x" "" "pw" "N" "" false [] ∧
    users (storage app') = users (storage guest_app) ++ [user] ∧
    (∀ u, u ∈ users (storage guest_app) → userId u < userId user) ∧
    current_user_obj app' = Some user ∧
    products (storage app') = products (storage guest_app) ∧
    load_users (users_file (storage app')) fs'
      = Ok (users (storage guest_app) ++ [user]).
Proof.
  assert ("new@x" ≠ "") as H1 by discriminate.
  assert ("pw" ≠ "") as H2 by discriminate.
  assert ("new@x" ∉ email <$> users (storage guest_app)) as H3 by decided.
  split; [exact H1|]. split; [exact H2|]. split; [exact H3|].
  exact (register_submit_new "new@x" "" "pw" "N" guest_app no_files H1 H2 H3).
Defined.

(** Logging in right after that registration. *)
Lemma login_after_register_witness :
  "new@x" ≠ "" ∧ "pw" ≠ "" ∧ ("new@x" ∉ email <$> users (storage guest_app)) ∧
  let app' := (register_submit "new@x" "" "pw" "N" guest_app no_files).1.1 in
  let app'' := (do_login "new@x" "pw" (mkApp (storage app') None)).1 in
  current_user app'' = Some (length (users (storage guest_app))) ∧
  current_user_obj app'' = current_user_obj app' ∧
  storage app'' = storage app'.
Proof.
  assert ("new@x" ≠ "") as H1 by discriminate.
  assert ("pw" ≠ "") as H2 by discriminate.
  assert ("new@x" ∉ email <$> users (storage guest_app)) as H3 by decided.
  split; [exact H1|]. split; [exact H2|]. split; [exact H3|].
  exact (login_after_register "new@x" "" "pw" "N" guest_app no_files None
           H1 H2 H3).
Defined.

(** User B makes product P2 a favorite. *)
Lemma toggle_favorite_flips_witness :
  current_user sample_app = Some 2%nat ∧
  users (storage sample_app) !! 2%nat = Some user_B ∧
  NoDup (favorites user_B) ∧
  ∃ u' app' fs' shown,
    toggle_favorite product_P2 sample_app no_files = Ok (app', fs', shown) ∧
    users (storage app') = <[2%nat := u']> (users (storage sample_app)) ∧
    current_user_obj app' = Some u' ∧
    u' = set_favorites (favorites u') user_B ∧
    (productId product_P2 ∈ favorites u' ↔ productId product_P2 ∉ favorites user_B) ∧
    (∀ x, x ≠ productId product_P2 → x ∈ favorites u' ↔ x ∈ favorites user_B) ∧
    NoDup (favorites u') ∧
    products (storage app') = products (storage sample_app) ∧
    load_users (users_file (storage app')) fs' = Ok (users (storage app')).
Proof.
  assert (NoDup (favorites user_B)) as Hnd by decided.
  split; [reflexivity|]. split; [reflexivity|]. split; [exact Hnd|].
  exact (toggle_favorite_flips product_P2 sample_app no_files 2 user_B
           eq_refl eq_refl Hnd).
Defined.

(** User B toggles product P2 twice. *)
Lemma toggle_favorite_twice_witness :
  current_user sample_app = Some 2%nat ∧
  users (storage sample_app) !! 2%nat = Some user_B ∧
  NoDup (favorites user_B) ∧
  ∃ app1 fs1 shown1 app2 fs2 shown2 u2,
    toggle_favorite product_P2 sample_app no_files = Ok (app1, fs1, shown1) ∧
    toggle_favorite product_P2 app1 fs1 = Ok (app2, fs2, shown2) ∧
    current_user_obj app2 = Some u2 ∧
    favorites u2 ≡ₚ favorites user_B ∧
    u2 = set_favorites (favorites u2) user_B ∧
    (productId product_P2 ∉ favorites user_B → app2 = sample_app).
Proof.
  assert (NoDup (favorites user_B)) as Hnd by decided.
  split; [reflexivity|]. split; [reflexivity|]. split; [exact Hnd|].
  exact (toggle_favorite_twice product_P2 sample_app no_files 2 user_B
           eq_refl eq_refl Hnd).
Defined.

(** The sample state stays sound when user B makes P2 a favorite. *)
Lemma toggle_favorite_keeps_integrity_witness :
  current_user sample_app = Some 2%nat ∧
  users (storage sample_app) !! 2%nat = Some user_B ∧
  product_P2 ∈ products (storage sample_app) ∧
  no_dangling_favorites (storage sample_app) = true ∧
  toggle_favorite product_P2 sample_app no_files
    = Ok (mkApp (set_users [default_admin 1; user_A; user_B_both] cascade_storage)
                (Some 2%nat),
          save_users
            (set_users [default_admin 1; user_A; user_B_both] cascade_storage)
            no_files,
          [showinfo "提示" "已加入收藏"]) ∧
  no_dangling_favorites
    (set_users [default_admin 1; user_A; user_B_both] cascade_storage) = true.
Proof.
  assert (product_P2 ∈ products (storage sample_app)) as Hin
    by (right; by left).
  split; [reflexivity|]. split; [reflexivity|]. split; [exact Hin|].
  split; [reflexivity|]. split; [reflexivity|].
  exact (toggle_favorite_keeps_integrity product_P2 sample_app no_files 2 user_B
           _ _ _ eq_refl eq_refl Hin eq_refl eq_refl).
Defined.

(** Deleting user A from the sample state, by position and by id. *)
Lemma del_user_agrees_with_test_witness :
  NoDup (userId <$> users cascade_storage) ∧
  users cascade_storage !! 1%nat = Some user_A ∧
  is_admin user_A = false ∧
  ∃ fs',
    del_user [1%nat] true cascade_storage no_files
    = Ok (delete_user_by_id (userId user_A) cascade_storage, fs').
Proof.
  assert (NoDup (userId <$> users cascade_storage)) as Hnd by decided.
  split; [exact Hnd|]. split; [reflexivity|]. split; [reflexivity|].
  exact (del_user_agrees_with_test 1 [] user_A cascade_storage no_files
           Hnd eq_refl eq_refl).
Defined.

(** After user A is deleted, product P2 still has its seller B. *)
Lemma del_user_keeps_sellers_witness :
  sellers_exist cascade_storage ∧
  del_user [1%nat] true cascade_storage no_files
    = Ok (mkStorage USERS_FILE PRODUCTS_FILE [default_admin 1; user_B] [product_P2],
          save_users
            (mkStorage USERS_FILE PRODUCTS_FILE [default_admin 1; user_B] [product_P2])
            (save_products
               (mkStorage USERS_FILE PRODUCTS_FILE [default_admin 1; user_B]
                  [product_P2])
               no_files)) ∧
  sellers_exist
    (mkStorage USERS_FILE PRODUCTS_FILE [default_admin 1; user_B] [product_P2]).
Proof.
  split; [exact cascade_sellers|]. split; [reflexivity|].
  exact (del_user_keeps_sellers [1%nat] true cascade_storage no_files _ _
           cascade_sellers eq_refl).
Defined.

(** Deleting product 201 from the state where user U has it as favorite. *)
Lemma product_delete_keeps_favorites_witness :
  no_dangling_favorites (favorite_storage [201]) = true ∧
  (∀ u, u ∈ users (favorite_storage [201]) → NoDup (favorites u)) ∧
  (∀ cu askyesno product storage' fs',
     _confirm_delete cu askyesno product (favorite_storage [201]) no_files
       = Ok (storage', fs') →
     no_dangling_favorites storage' = true ∧
     ∀ u, u ∈ users storage' → NoDup (favorites u)) ∧
  (∀ sel askyesno storage' fs',
     del_product_admin sel askyesno (favorite_storage [201]) no_files
       = Ok (storage', fs') →
     no_dangling_favorites storage' = true ∧
     ∀ u, u ∈ users storage' → NoDup (favorites u)).
Proof.
  assert (∀ u, u ∈ users (favorite_storage [201]) → NoDup (favorites u)) as Hnd.
  { intros u Hu. cbn in Hu. apply elem_of_cons in Hu as [->|Hu].
    - apply NoDup_nil_2.
    - apply list_elem_of_singleton in Hu as ->. apply NoDup_singleton. }
  split; [reflexivity|]. split; [exact Hnd|].
  exact (product_delete_keeps_favorites (favorite_storage [201]) no_files
           eq_refl Hnd).
Defined.

(** Registering "new@x", deleting that user, and allocating again. *)
Lemma deleted_id_is_reused_witness :
  "new@x" ≠ "" ∧ "pw" ≠ "" ∧ ("new@x" ∉ email <$> users (storage guest_app)) ∧
  ∃ user app1 fs1 shown storage2 fs2,
    register_submit "new@x" "" "pw" "N" guest_app no_files = (app1, fs1, shown) ∧
    current_user_obj app1 = Some user ∧
    del_user [length (users (storage guest_app))] true (storage app1) fs1
      = Ok (storage2, fs2) ∧
    users storage2 = users (storage guest_app) ∧
    ensure_int_id (userId <$> users storage2) = userId user.
Proof.
  assert ("new@x" ≠ "") as H1 by discriminate.
  assert ("pw" ≠ "") as H2 by discriminate.
  assert ("new@x" ∉ email <$> users (storage guest_app)) as H3 by decided.
  split; [exact H1|]. split; [exact H2|]. split; [exact H3|].
  exact (deleted_id_is_reused "new@x" "" "pw" "N" guest_app no_files H1 H2 H3).
Defined.

(** Saving the sample state and opening it again. *)
Lemma reopen_after_save_witness :
  users_file cascade_storage ≠ products_file cascade_storage ∧
  any_admin (users cascade_storage) = true ∧
  let fs' := save_users cascade_storage (save_products cascade_storage no_files) in
  Storage_init (users_file cascade_storage) (products_file cascade_storage) fs'
    = Ok (cascade_storage, fs').
Proof.
  assert (users_file cascade_storage ≠ products_file cascade_storage) as Hpaths
    by discriminate.
  split; [exact Hpaths|]. split; [reflexivity|].
  exact (reopen_after_save cascade_storage no_files Hpaths eq_refl).
Defined.

(** First run, then a second start. *)
Lemma Storage_init_idempotent_witness :
  USERS_FILE ≠ PRODUCTS_FILE ∧
  Storage_init USERS_FILE PRODUCTS_FILE no_files
    = Ok (mkStorage USERS_FILE PRODUCTS_FILE [default_admin 1] [],
          save_users (mkStorage USERS_FILE PRODUCTS_FILE [default_admin 1] [])
            no_files) ∧
  Storage_init USERS_FILE PRODUCTS_FILE
    (save_users (mkStorage USERS_FILE PRODUCTS_FILE [default_admin 1] []) no_files)
    = Ok (mkStorage USERS_FILE PRODUCTS_FILE [default_admin 1] [],
          save_users (mkStorage USERS_FILE PRODUCTS_FILE [default_admin 1] [])
            no_files).
Proof.
  assert (USERS_FILE ≠ PRODUCTS_FILE) as Hpaths by discriminate.
  split; [exact Hpaths|]. split; [reflexivity|].
  exact (Storage_init_idempotent USERS_FILE PRODUCTS_FILE no_files _ _
           Hpaths eq_refl).
Defined.

(** User A publishes a lamp with a price [float] does not read. *)
Lemma publish_submit_new_witness :
  "lamp" ≠ "" ∧
  ∃ p storage' fs' shown,
    publish_submit no_float user_A "lamp" "home" "a lamp" "cheap" []
      cascade_storage no_files = (storage', fs', shown) ∧
    products storage' = products cascade_storage ++ [p] ∧
    users storage' = users cascade_storage ∧
    p = mkProduct (ensure_int_id (productId <$> products cascade_storage)) "lamp"
          "home" "a lamp" (price p) [] (userId user_A) [] ∧
    (∀ q, q ∈ products cascade_storage → productId q < productId p) ∧
    (∀ x, no_float "cheap" = Ok x → price p = x) ∧
    (∀ e, no_float "cheap" = Raise e → price p = S754_zero false) ∧
    (NoDup (productId <$> products cascade_storage) →
     NoDup (productId <$> products storage')) ∧
    (no_dangling_favorites cascade_storage = true →
     no_dangling_favorites storage' = true) ∧
    (user_A ∈ users cascade_storage → sellers_exist cascade_storage →
     sellers_exist storage') ∧
    load_products (products_file storage') fs' = Ok (products storage').
Proof.
  assert ("lamp" ≠ "") as Hname by discriminate.
  split; [exact Hname|].
  exact (publish_submit_new no_float user_A "lamp" "home" "a lamp" "cheap" []
           cascade_storage no_files Hname).
Defined.

(** User B comments on product P1. *)
Lemma post_comment_appends_witness :
  "nice" ≠ "" ∧ products cascade_storage !! 0%nat = Some product_P1 ∧
  ∃ st' fs' dialogs,
    post_comment user_B 0 "nice" cascade_storage no_files = (st', fs', dialogs) ∧
    products st' !! 0%nat
      = Some (add_comment (comment (userId user_B) (nickname user_B) "nice")
                product_P1) ∧
    comments (add_comment (comment (userId user_B) (nickname user_B) "nice")
                product_P1)
      = comments product_P1
        ++ [[("userId", JInt (userId user_B));
             ("nickname", JStr (nickname user_B)); ("text", JStr "nice")]] ∧
    (∀ j, j ≠ 0%nat → products st' !! j = products cascade_storage !! j) ∧
    productId <$> products st' = productId <$> products cascade_storage ∧
    sellerId <$> products st' = sellerId <$> products cascade_storage ∧
    users st' = users cascade_storage ∧
    (∀ email' phone' nickname' cu fs2,
       products (storage (profile_save email' phone' nickname'
                            (mkApp st' cu) fs2).1.1)
       = products st') ∧
    load_products (products_file st') fs' = Ok (products st').
Proof.
  assert ("nice" ≠ "") as Htxt by discriminate.
  split; [exact Htxt|]. split; [reflexivity|].
  exact (post_comment_appends user_B 0 "nice" cascade_storage no_files product_P1
           Htxt eq_refl).
Defined.


(** The path returned for [photos/cat.png] on the sample tree. *)
Lemma returned_path_names_the_copy_witness :
  copy_image_to_storage plain_copy2 7 "photos/cat.png" sample_world
    = Some (mkWorld (<["images/cat_2.png" := File "new cat"]> sample_tree) [],
            Ok (Some "images/cat_2.png")) ∧
  ∃ candidate,
    plain_copy2 "photos/cat.png" ("images/" +:+ candidate) (tree sample_world)
      = (<["images/cat_2.png" := File "new cat"]> sample_tree, Ok ()) ∧
    os_path_exists ("images/" +:+ candidate) (tree sample_world) = false ∧
    "images/cat_2.png" = str_replace backslash sep ("images/" +:+ candidate) ∧
    ("images/cat_2.png" = "images/" +:+ candidate
     ↔ str_contains backslash (os_path_basename "photos/cat.png") = false) ∧
    (copy2_contract plain_copy2 →
     str_contains backslash (os_path_basename "photos/cat.png") = false →
     os_path_exists "images/cat_2.png"
       (<["images/cat_2.png" := File "new cat"]> sample_tree) = true).
Proof.
  assert (copy_image_to_storage plain_copy2 7 "photos/cat.png" sample_world
          = Some (mkWorld (<["images/cat_2.png" := File "new cat"]> sample_tree) [],
                  Ok (Some "images/cat_2.png"))) as Hrun
    by (vm_compute; reflexivity).
  split; [exact Hrun|].
  exact (returned_path_names_the_copy plain_copy2 7 "photos/cat.png" sample_world
           _ _ Hrun).
Defined.

(** First run, then the administrator logs in. *)
Lemma default_admin_can_log_in_witness :
  load_users USERS_FILE no_files = Ok [] ∧ any_admin [] = false ∧
  Storage_init USERS_FILE PRODUCTS_FILE no_files
    = Ok (mkStorage USERS_FILE PRODUCTS_FILE [default_admin 1] [],
          save_users (mkStorage USERS_FILE PRODUCTS_FILE [default_admin 1] [])
            no_files) ∧
  ∃ i u,
    current_user
      (do_login "admin@example.com" "admin"
         (mkApp (mkStorage USERS_FILE PRODUCTS_FILE [default_admin 1] []) None)).1
      = Some i ∧
    users (mkStorage USERS_FILE PRODUCTS_FILE [default_admin 1] []) !! i = Some u ∧
    email u = "admin@example.com" ∧ password u = "admin" ∧
    ((∀ v, v ∈ [] → ¬ (email v = "admin@example.com" ∧ password v = "admin")) →
       i = length (@nil User) ∧ u = default_admin (ensure_int_id (userId <$> []))) ∧
    ((∃ v, v ∈ [] ∧ email v = "admin@example.com" ∧ password v = "admin") →
       (i < length (@nil User))%nat ∧ is_admin u = false).
Proof.
  split; [reflexivity|]. split; [reflexivity|]. split; [reflexivity|].
  exact (default_admin_can_log_in USERS_FILE PRODUCTS_FILE no_files [] _ _ None
           eq_refl eq_refl eq_refl).
Defined.
